(** * Mammogram analysis pipeline: decrypt, preprocess, detect, filter, report

    A shallow embedding of [scripts/mammogram_analysis.py] and the
    properties of its specification.

    The script is sequential Python with exceptions and a handful of
    effects: files, standard output (the JSON record and the lines of the
    logging stream handler) and the exit status.  The embedding is a
    state-and-exception monad over an explicit world.  Argument parsing
    happens before the [try] of [main] and is not modelled: [main] takes
    the parsed arguments.  The log file is not modelled.

    The AES block primitive, the image decoders and the detection network
    are external libraries: they are variables of the sections below.
    The suppression routine and the encrypting side are not part of the
    script either and are modelled from its specification; this is said
    where they are defined.

    Part I holds the definitions, Part II the properties of the
    specification, Part III further properties read off the script. *)

From stdpp Require Import gmap strings list pretty.
From Stdlib Require Import ZArith QArith Strings.Byte Ascii Sorted.
From Equations Require Import Equations.

Local Open Scope Z_scope.

(** * Part I: the embedding *)

(** ** Byte strings and the Python operations used on them *)

Abbreviation bytes := (list byte).

(** [x[i]] for a Python sequence: negative indices count from the end,
    an index out of range raises [IndexError] (here [None]). *)
Definition py_getitem {A} (l : list A) (i : Z) : option A :=
  let n := Z.of_nat (length l) in
  let j := if i <? 0 then i + n else i in
  if (0 <=? j) && (j <? n) then l !! Z.to_nat j else None.

(** The bound of a slice, as Python normalises it: a negative bound is
    taken from the end, and every bound is clamped to [0, len]. *)
Definition py_slice_bound (n : nat) (i : Z) : nat :=
  Z.to_nat (if i <? 0 then Z.max (i + Z.of_nat n) 0
            else Z.min i (Z.of_nat n)).

(** [x[:stop]] *)
Definition py_slice_to {A} (l : list A) (stop : Z) : list A :=
  take (py_slice_bound (length l) stop) l.

(** [x[start:]] *)
Definition py_slice_from {A} (l : list A) (start : Z) : list A :=
  drop (py_slice_bound (length l) start) l.

(** The integer value of a byte, as [bytes.__getitem__] returns it. *)
Definition byte_val (b : byte) : Z := Z.of_nat (Byte.to_nat b).

(** ** [bytes.fromhex] *)

Definition hex_digit (c : ascii) : option N :=
  let n := N_of_ascii c in
  if ((48 <=? n) && (n <=? 57))%N then Some (n - 48)%N
  else if ((97 <=? n) && (n <=? 102))%N then Some (n - 87)%N
  else if ((65 <=? n) && (n <=? 70))%N then Some (n - 55)%N
  else None.

(** ASCII whitespace: space, and the controls 9 to 13. *)
Definition py_isspace (c : ascii) : bool :=
  let n := N_of_ascii c in
  ((n =? 32) || ((9 <=? n) && (n <=? 13)))%N.

(** Pairs of hexadecimal digits, ASCII whitespace allowed before each
    pair; anything else raises [ValueError] (here [None]). *)
Fixpoint bytes_fromhex (s : string) : option bytes :=
  match s with
  | EmptyString => Some []
  | String c rest =>
      if py_isspace c then bytes_fromhex rest
      else
        match hex_digit c, rest with
        | Some hi, String c' rest' =>
            match hex_digit c' with
            | Some lo =>
                match Byte.of_N (16 * hi + lo), bytes_fromhex rest' with
                | Some b, Some bs => Some (b :: bs)
                | _, _ => None
                end
            | None => None
            end
        | _, _ => None
        end
  end.

Fixpoint all_hex (s : string) : bool :=
  match s with
  | EmptyString => true
  | String c rest =>
      match hex_digit c with Some _ => all_hex rest | None => false end
  end.

(** ** Bitwise exclusive or on bytes and byte strings *)

Definition byte_xor (a b : byte) : byte :=
  match Byte.to_bits a, Byte.to_bits b with
  | (a0, (a1, (a2, (a3, (a4, (a5, (a6, a7))))))),
    (b0, (b1, (b2, (b3, (b4, (b5, (b6, b7))))))) =>
      Byte.of_bits (xorb a0 b0, (xorb a1 b1, (xorb a2 b2, (xorb a3 b3,
                   (xorb a4 b4, (xorb a5 b5, (xorb a6 b6, xorb a7 b7)))))))
  end.

(** [strxor]: the shorter operand decides the length. *)
Definition xor_bytes (a b : bytes) : bytes := zip_with byte_xor a b.

(** ** Detections and the report printed by a run *)

Record BBox := { x_min : Q; y_min : Q; x_max : Q; y_max : Q }.

Record Detection := { bbox : BBox; confidence : Q }.

(** The dictionary passed to [json.dumps]: one of the two shapes [main]
    builds. *)
Inductive Report :=
| SuccessReport (detections : list Detection) (image_path timestamp : string)
| ErrorReport (message image_path timestamp : string).

(** What reaches standard output: the lines of the logging stream handler
    and the JSON documents printed by [main]. *)
Inductive Line :=
| LogLine (level message : string)
| JsonLine (r : Report).

Definition json_lines (out : list Line) : list Report :=
  omap (fun l => match l with JsonLine r => Some r | LogLine _ _ => None end)
       out.

(** ** The world of a run *)

Record World := {
  files : gmap string bytes;      (* readable regular files, by path *)
  may_write : string -> bool;     (* does [open(p, "wb")] succeed *)
  may_remove : string -> bool;    (* does [os.remove(p)] succeed *)
  stdout : list Line;             (* standard output, oldest line first *)
  now : string                    (* [datetime.now().isoformat()] *)
}.

Definition set_files (f : gmap string bytes) (w : World) : World :=
  {| files := f; may_write := may_write w; may_remove := may_remove w;
     stdout := stdout w; now := now w |}.

Definition emit (l : Line) (w : World) : World :=
  {| files := files w; may_write := may_write w; may_remove := may_remove w;
     stdout := stdout w ++ [l]; now := now w |}.

(** ** Python control flow: state and exceptions *)

(** [SystemExit] derives from [BaseException], not from [Exception]:
    an [except Exception] clause lets it through. *)
Inductive exn :=
| Exception (msg : string)
| SystemExit (code : Z).

Inductive outcome (A : Type) :=
| Return (a : A)
| Raise (e : exn).
Arguments Return {A} a.
Arguments Raise {A} e.

Definition Py (A : Type) : Type := World -> outcome A * World.

Definition py_ret {A} (a : A) : Py A := fun w => (Return a, w).

Definition py_bind {A B} (f : A -> Py B) (m : Py A) : Py B :=
  fun w =>
    match m w with
    | (Return a, w') => f a w'
    | (Raise e, w') => (Raise e, w')
    end.

#[export] Instance Py_ret : MRet Py := @py_ret.
#[export] Instance Py_bind : MBind Py := @py_bind.

Definition raise {A} (e : exn) : Py A := fun w => (Raise e, w).

(** [try: body  except Exception as e: handler(str(e))] *)
Definition try_except {A} (body : Py A) (handler : string -> Py A) : Py A :=
  fun w =>
    match body w with
    | (Raise (Exception msg), w') => handler msg w'
    | r => r
    end.

(** The messages of the library exceptions that the script can meet. *)
Definition msg_no_file (p : string) : string :=
  "No such file or directory: " +:+ p.
Definition msg_denied (p : string) : string := "Permission denied: " +:+ p.
Definition msg_not_padded : string :=
  "Data must be padded to 16 byte boundary in CBC mode".
Definition msg_no_photometric : string :=
  "'FileDataset' object has no attribute 'PhotometricInterpretation'".
Definition msg_empty_max : string :=
  "zero-size array to reduction operation maximum which has no identity".
Definition msg_none_image : string :=
  "unsupported operand type(s) for *: 'float' and 'NoneType'".

(** A library call that either returns or raises [Exception msg]. *)
Definition or_raise {A} (o : option A) (msg : string) : Py A :=
  match o with
  | Some a => mret a
  | None => raise (Exception msg)
  end.

Definition sys_exit {A} (code : Z) : Py A := raise (SystemExit code).

Definition logger_info (msg : string) : Py unit :=
  fun w => (Return tt, emit (LogLine "INFO" msg) w).

Definition logger_error (msg : string) : Py unit :=
  fun w => (Return tt, emit (LogLine "ERROR" msg) w).

Definition print_json (r : Report) : Py unit :=
  fun w => (Return tt, emit (JsonLine r) w).

Definition datetime_now : Py string := fun w => (Return (now w), w).

(** [with open(p, "rb") as f: f.read()] *)
Definition read_file (p : string) : Py bytes :=
  fun w => or_raise (files w !! p) (msg_no_file p) w.

(** [with open(p, "wb") as f: f.write(d)] *)
Definition write_file (p : string) (d : bytes) : Py unit :=
  fun w =>
    if may_write w p then (Return tt, set_files (<[p := d]> (files w)) w)
    else (Raise (Exception (msg_denied p)), w).

(** [os.remove(p)] *)
Definition os_remove (p : string) : Py unit :=
  fun w =>
    match files w !! p with
    | None => (Raise (Exception (msg_no_file p)), w)
    | Some _ =>
        if may_remove w p then (Return tt, set_files (delete p (files w)) w)
        else (Raise (Exception (msg_denied p)), w)
    end.

(** ** AES in CBC mode, around an abstract block primitive *)

Definition AES_block : nat := 16.

Definition is_block (b : bytes) : Prop := length b = AES_block.

(** The ciphertext cut into 16-byte blocks (the last one shorter when the
    length is not a multiple of 16). *)
Equations? blocks (data : bytes) : list bytes by wf (length data) lt :=
  blocks [] := [];
  blocks (b :: data) :=
    take AES_block (b :: data) :: blocks (drop AES_block (b :: data)).
Proof. rewrite length_drop. unfold AES_block. lia. Qed.

Record CbcCipher := { cipher_key : bytes; cipher_iv : bytes }.

(** [AES.new(key, AES.MODE_CBC, iv)]: the key is 16, 24 or 32 bytes and
    the IV one block, [ValueError] otherwise. *)
Definition AES_new (key iv : bytes) : option CbcCipher :=
  let k := length key in
  if ((k =? 16) || (k =? 24) || (k =? 32))%nat && (length iv =? AES_block)%nat
  then Some {| cipher_key := key; cipher_iv := iv |}
  else None.

Section Cbc.

(** The inverse block transformation of AES under a key. *)
Variable aes_decrypt_block : bytes -> bytes -> bytes.

Fixpoint cbc_decrypt_blocks (key prev : bytes) (cs : list bytes)
  : list bytes :=
  match cs with
  | [] => []
  | c :: cs' =>
      xor_bytes (aes_decrypt_block key c) prev
        :: cbc_decrypt_blocks key c cs'
  end.

(** [cipher.decrypt(data)]: [ValueError] unless the data is a whole
    number of blocks. *)
Definition cipher_decrypt (c : CbcCipher) (data : bytes) : option bytes :=
  if (length data mod AES_block =? 0)%nat
  then Some (concat (cbc_decrypt_blocks (cipher_key c) (cipher_iv c)
                                        (blocks data)))
  else None.

End Cbc.

(** ** The decryptor *)

Definition IV_LENGTH : Z := 16.

(** Lines 52 and 53: [pad_len = decrypted[-1]] then
    [decrypted[:-pad_len]]. *)
Definition strip_padding (decrypted : bytes) : option bytes :=
  pad_len ← py_getitem decrypted (-1);
  Some (py_slice_to decrypted (- byte_val pad_len)).

(** [not ENCRYPTION_KEY]: the variable is unset or empty. *)
Definition key_unset (k : option string) : bool :=
  match k with
  | None => true
  | Some s => if decide (s = "") then true else false
  end.

Section Decryptor.

(** [os.environ.get("MAMMOGRAM_ENCRYPTION_KEY")], read once at import. *)
Variable ENCRYPTION_KEY : option string.
Variable aes_decrypt_block : bytes -> bytes -> bytes.

Definition decrypt_file (input_path output_path : string) : Py bool :=
  try_except
    (if key_unset ENCRYPTION_KEY
     then raise (Exception "MAMMOGRAM_ENCRYPTION_KEY not set")
     else
       data ← read_file input_path;
       let iv := py_slice_to data IV_LENGTH in
       let encrypted_data := py_slice_from data IV_LENGTH in
       key ← or_raise (bytes_fromhex (default "" ENCRYPTION_KEY))
                      "non-hexadecimal number found in fromhex() arg";
       cipher ← or_raise (AES_new key iv) "Incorrect AES key or IV length";
       decrypted ← or_raise (cipher_decrypt aes_decrypt_block cipher
                                            encrypted_data)
                            msg_not_padded;
       decrypted ← or_raise (strip_padding decrypted)
                            "index out of range";
       write_file output_path decrypted;;
       logger_info ("Decrypted: " +:+ input_path +:+ " -> " +:+ output_path);;
       mret true)
    (fun msg =>
       logger_error ("Decryption failed: " +:+ msg);;
       mret false).

(** The pure core of [decrypt_file]: the bytes it writes for the contents
    of the input file, or [None] when an exception is raised on the
    way. *)
Definition decrypt_bytes (data : bytes) : option bytes :=
  key ← bytes_fromhex (default "" ENCRYPTION_KEY);
  cipher ← AES_new key (py_slice_to data IV_LENGTH);
  decrypted ← cipher_decrypt aes_decrypt_block cipher
                             (py_slice_from data IV_LENGTH);
  strip_padding decrypted.

End Decryptor.

(** ** The encrypting side *)

Definition pad_byte (n : nat) : byte := default x00 (Byte.of_nat n).

(** Modelled from the spec: the encryptor is not part of this script.  An
    encrypted blob is a "16-byte initialization vector followed by
    ciphertext produced by a block cipher in CBC mode with PKCS-style
    padding": the plaintext is followed by [n] bytes of value [n], with
    [n] between 1 and 16 filling the last block. *)
Definition pkcs_pad (p : bytes) : bytes :=
  let n := (AES_block - length p mod AES_block)%nat in
  p ++ replicate n (pad_byte n).

Section Encryptor.

(** The forward block transformation of AES under a key. *)
Variable aes_encrypt_block : bytes -> bytes -> bytes.

(** Modelled from the spec: CBC chaining, each plaintext block is
    combined with the previous ciphertext block (the IV for the first)
    before the block transformation. *)
Fixpoint cbc_encrypt_blocks (key prev : bytes) (ps : list bytes)
  : list bytes :=
  match ps with
  | [] => []
  | p :: ps' =>
      let c := aes_encrypt_block key (xor_bytes p prev) in
      c :: cbc_encrypt_blocks key c ps'
  end.

(** Modelled from the spec: the encrypted blob, IV first. *)
Definition encrypt_blob (key iv plaintext : bytes) : bytes :=
  iv ++ concat (cbc_encrypt_blocks key iv (blocks (pkcs_pad plaintext))).

End Encryptor.

(** ** Arrays *)

(** A two-dimensional numpy array: its shape and the element at each
    index. *)
Record ndarray (A : Type) := {
  shape0 : nat;
  shape1 : nat;
  item : nat -> nat -> A
}.
Arguments shape0 {A} _.
Arguments shape1 {A} _.
Arguments item {A} _ _ _.

Definition np_map {A B} (f : A -> B) (a : ndarray A) : ndarray B :=
  {| shape0 := shape0 a; shape1 := shape1 a;
     item := fun i j => f (item a i j) |}.

(** Row [i] as a sequence. *)
Definition np_row {A} (a : ndarray A) (i : nat) : list A :=
  map (item a i) (seq 0 (shape1 a)).

(** All elements, row by row. *)
Definition np_elements {A} (a : ndarray A) : list A :=
  flat_map (np_row a) (seq 0 (shape0 a)).

(** [a.max()]: [ValueError] on an array without elements. *)
Definition np_max (a : ndarray Z) : option Z :=
  match np_elements a with
  | [] => None
  | x :: xs => Some (fold_left Z.max xs x)
  end.

(** A float64 value.  Finite values are carried as exact rationals: for
    integer pixels [v] and [m] with [255 * v] below 2^53, neither the
    product [255.0 * v] nor the rounding of the quotient by [m] crosses an
    integer, so the truncation to uint8 below is the one numpy computes. *)
Inductive float :=
| Finite (q : Q)
| NaN
| Infinity (negative : bool).

(** [x / m] on float64 with an integer divisor: numpy warns on a zero
    divisor and yields NaN for 0/0 and an infinity otherwise. *)
Definition np_true_divide (x : Q) (m : Z) : float :=
  if m =? 0 then
    (if Qeq_bool x 0 then NaN else Infinity (Qle_bool x 0))
  else Finite (x / inject_Z m)%Q.

(** [255.0 * img / m] *)
Definition rescale_by (m : Z) (img : ndarray Z) : ndarray float :=
  np_map (fun v => np_true_divide (255 * inject_Z v)%Q m) img.

(** A three-dimensional array of uint8. *)
Record ndarray3 := {
  dim0 : nat;
  dim1 : nat;
  dim2 : nat;
  item3 : nat -> nat -> nat -> Z
}.

(** [np.zeros((h, w, c), dtype=np.uint8)] *)
Definition np_zeros3 (h w c : nat) : ndarray3 :=
  {| dim0 := h; dim1 := w; dim2 := c; item3 := fun _ _ _ => 0 |}.

Definition Qtrunc (q : Q) : Z := Z.quot (Qnum q) (Zpos (Qden q)).

(** The integer element types of a DICOM pixel array. *)
Inductive Dtype := uint8 | int8 | uint16 | int16 | uint32 | int32.

Definition dtype_bits (t : Dtype) : Z :=
  match t with
  | uint8 | int8 => 8
  | uint16 | int16 => 16
  | uint32 | int32 => 32
  end.

Definition dtype_signed (t : Dtype) : bool :=
  match t with
  | int8 | int16 | int32 => true
  | uint8 | uint16 | uint32 => false
  end.

(** The value an integer result takes in an array of type [t]: modulo
    2^bits, in the signed or the unsigned range. *)
Definition wrap (t : Dtype) (x : Z) : Z :=
  let m := 2 ^ dtype_bits t in
  if dtype_signed t then (x + m / 2) mod m - m / 2 else x mod m.

Record Dataset := {
  pixel_array : ndarray Z;
  pixel_dtype : Dtype;
  PhotometricInterpretation : option string
}.

Section Imaging.

(** The file decoders: [pydicom.dcmread] and
    [cv2.imread(_, cv2.IMREAD_GRAYSCALE)] on the bytes of a file. *)
Variable dcmread : bytes -> option Dataset.
Variable imread_grayscale : bytes -> option (ndarray Z).
(** What the conversion to uint8 makes of NaN and the infinities: left
    to the platform by numpy. *)
Variable uint8_of_nonfinite : float -> Z.

(** The conversion to uint8 done by an assignment into a uint8 array:
    truncation toward zero, kept to 8 bits (what the conversion does
    outside 0..255 is the platform's; the low 8 bits are the usual
    outcome). *)
Definition to_uint8 (x : float) : Z :=
  match x with
  | Finite q => Qtrunc q mod 256
  | _ => uint8_of_nonfinite x mod 256
  end.

(** [im[:, :, c] = img] *)
Definition set_channel (c : nat) (img : ndarray float) (im : ndarray3)
  : ndarray3 :=
  {| dim0 := dim0 im; dim1 := dim1 im; dim2 := dim2 im;
     item3 := fun i j k =>
                if (k =? c)%nat then to_uint8 (item img i j)
                else item3 im i j k |}.

(** [255.0 * img / img.max()] *)
Definition rescale (img : ndarray Z) : Py (ndarray float) :=
  m ← or_raise (np_max img) msg_empty_max;
  mret (rescale_by m img).

Definition preprocess_image (image_path : string) (is_dicom : bool)
  : Py ndarray3 :=
  try_except
    (img ←
       (if is_dicom then
          data ← read_file image_path;
          ds ← or_raise (dcmread data) "Invalid DICOM file";
          let img := pixel_array ds in
          pi ← or_raise (PhotometricInterpretation ds) msg_no_photometric;
          img ←
            (if decide (pi = "MONOCHROME1") then
               m ← or_raise (np_max img) msg_empty_max;
               mret (np_map (fun v => wrap (pixel_dtype ds) (m - v)) img)
             else mret img);
          rescale img
        else
          img ← (fun w =>
                   or_raise (files w !! image_path ≫= imread_grayscale)
                            msg_none_image w);
          rescale img);
     let im := np_zeros3 (shape0 img) (shape1 img) 3 in
     let im := set_channel 0 img im in
     let im := set_channel 1 img im in
     let im := set_channel 2 img im in
     mret im)
    (fun msg =>
       logger_error ("Preprocessing failed for " +:+ image_path +:+ ": "
                     +:+ msg);;
       raise (Exception msg)).

(** Lines 73 to 76: the three-channel image built from the rescaled
    array. *)
Definition three_channels (img : ndarray float) : ndarray3 :=
  set_channel 2 img
    (set_channel 1 img
       (set_channel 0 img (np_zeros3 (shape0 img) (shape1 img) 3))).

End Imaging.

(** The pixel array decoded from the file at [path]. *)
Definition source_pixels
    (dcmread : bytes -> option Dataset)
    (imread_grayscale : bytes -> option (ndarray Z))
    (w : World) (path : string) (is_dicom : bool) : option (ndarray Z) :=
  data ← files w !! path;
  if is_dicom then pixel_array <$> dcmread data else imread_grayscale data.

(** ** The detection filter *)

(** [cfg.TEST.NMS] and [CONF_THRESH].  Scores are float32 values, carried
    here as the rationals they denote; no float32 value lies between 0.8
    and the double or the single nearest to it, so comparing with the
    rational 0.8 decides [det[-1] >= CONF_THRESH] as numpy does. *)
Definition NMS_THRESH : Q := 3 # 10.
Definition CONF_THRESH : Q := 8 # 10.

(** [a[:, start:stop]] for non-negative bounds. *)
Definition np_cols {A} (a : ndarray A) (start stop : nat) : ndarray A :=
  {| shape0 := shape0 a;
     shape1 := (Nat.min stop (shape1 a) - start)%nat;
     item := fun i j => item a i (start + j)%nat |}.

(** [np.hstack((a, col[:, np.newaxis]))]: [ValueError] unless the row
    counts agree. *)
Definition np_hstack_col {A} (a : ndarray A) (col : list A) (d : A)
  : option (ndarray A) :=
  if (shape0 a =? length col)%nat then
    Some {| shape0 := shape0 a;
            shape1 := S (shape1 a);
            item := fun i j => if (j <? shape1 a)%nat then item a i j
                               else nth i col d |}
  else None.

(** One candidate of the suppression: its row index, box and score. *)
Record Candidate := { cand_index : nat; cand_box : BBox; cand_score : Q }.

Definition candidate_of (dets : ndarray Q) (i : nat) : Candidate :=
  {| cand_index := i;
     cand_box := {| x_min := item dets i 0; y_min := item dets i 1;
                    x_max := item dets i 2; y_max := item dets i 3 |};
     cand_score := item dets i 4 |}.

(** Modelled from the spec: "sort candidates by score descending".  The
    suppression library is not part of this script. *)
Fixpoint insert_desc (c : Candidate) (l : list Candidate) : list Candidate :=
  match l with
  | [] => [c]
  | d :: l' =>
      if Qle_bool (cand_score d) (cand_score c) then c :: d :: l'
      else d :: insert_desc c l'
  end.

Definition sort_desc (l : list Candidate) : list Candidate :=
  foldr insert_desc [] l.

(** Descending order of scores, as a relation between an earlier and a
    later candidate. *)
Definition desc (a b : Candidate) : Prop := (cand_score b <= cand_score a)%Q.

Section Suppression.

(** Modelled from the spec: IoU, the "overlap ratio between two bounding
    boxes", as the suppression library computes it. *)
Variable iou : BBox -> BBox -> Q.

(** Modelled from the spec: "repeatedly keep the highest remaining,
    discard any remaining box whose IoU with a kept box exceeds the
    threshold". *)
Equations? greedy (thresh : Q) (order : list Candidate) : list Candidate
  by wf (length order) lt :=
  greedy thresh [] := [];
  greedy thresh (c :: rest) :=
    c :: greedy thresh
           (List.filter
              (fun d => Qle_bool (iou (cand_box c) (cand_box d)) thresh)
              rest).
Proof. simpl. pose proof (List.filter_length_le
  (fun d => Qle_bool (iou (cand_box c) (cand_box d)) thresh) rest). lia. Qed.

(** The kept candidates of the suppression, in kept order. *)
Definition nms_kept (dets : ndarray Q) (thresh : Q) : list Candidate :=
  greedy thresh (sort_desc (map (candidate_of dets) (seq 0 (shape0 dets)))).

(** Modelled from the spec: greedy non-max suppression over the rows
    [x_min, y_min, x_max, y_max, score] of [dets]; returns the indices
    of the kept rows, highest score first.  Rows with fewer than five
    columns raise [IndexError]. *)
Definition nms (dets : ndarray Q) (thresh : Q) : option (list nat) :=
  if (shape0 dets =? 0)%nat then Some []
  else if (shape1 dets <? 5)%nat then None
  else Some (map cand_index (nms_kept dets thresh)).

(** No overlap above the threshold between an earlier and a later
    candidate. *)
Definition separated (thresh : Q) (a b : Candidate) : Prop :=
  (iou (cand_box a) (cand_box b) <= thresh)%Q.

(** [dets[keep, :]], then iteration over the rows. *)
Definition np_take_rows {A} (a : ndarray A) (keep : list nat)
  : option (list (list A)) :=
  mapM (fun i => if (i <? shape0 a)%nat then Some (np_row a i) else None)
       keep.

(** The dictionary built for one row. *)
Definition detection_of (det : list Q) : option Detection :=
  x0 ← py_getitem det 0;
  y0 ← py_getitem det 1;
  x1 ← py_getitem det 2;
  y1 ← py_getitem det 3;
  c ← py_getitem det (-1);
  Some {| bbox := {| x_min := x0; y_min := y0; x_max := x1; y_max := y1 |};
          confidence := c |}.

(** [[{...} for det in dets if det[-1] >= CONF_THRESH]] *)
Fixpoint collect_results (dets : list (list Q)) : option (list Detection) :=
  match dets with
  | [] => Some []
  | det :: rest =>
      c ← py_getitem det (-1);
      if Qle_bool CONF_THRESH c then
        r ← detection_of det;
        rs ← collect_results rest;
        Some (r :: rs)
      else collect_results rest
  end.

(** [.astype(np.float32)]: the rounding of each entry to float32. *)
Variable float32 : Q -> Q.

(** Lines 97 to 100 of [analyze_mammogram]: the boxes and scores of the
    lesion class, side by side, as float32. *)
Definition class_dets (scores boxes : ndarray Q) : option (ndarray Q) :=
  let cls_ind := 1%nat in
  let cls_boxes := np_cols boxes (4 * cls_ind) (4 * (cls_ind + 1)) in
  cls_scores ←
    (if (cls_ind <? shape1 scores)%nat
     then Some (map (fun i => item scores i cls_ind) (seq 0 (shape0 scores)))
     else None);
  dets ← np_hstack_col cls_boxes cls_scores 0%Q;
  Some (np_map float32 dets).

(** Lines 97 to 109 of [analyze_mammogram]: from the detector's scores
    and boxes to the result list; [None] when an exception is raised. *)
Definition select_detections (scores boxes : ndarray Q)
  : option (list Detection) :=
  dets ← class_dets scores boxes;
  keep ← nms dets NMS_THRESH;
  dets ← np_take_rows dets keep;
  collect_results dets.

End Suppression.

Definition to_detection (c : Candidate) : Detection :=
  {| bbox := cand_box c; confidence := cand_score c |}.

Definition passes (c : Candidate) : bool :=
  Qle_bool CONF_THRESH (cand_score c).

(** ** The pipeline *)

Record Args := {
  input : string;
  output : string;
  prototxt : string;
  model : string;
  is_dicom : bool
}.

(** The status the process ends with: 0 after a normal return, the code
    of an uncaught [SystemExit], 1 after an uncaught exception. *)
Definition exit_status {A} (r : outcome A) : Z :=
  match r with
  | Return _ => 0
  | Raise (SystemExit code) => code
  | Raise (Exception _) => 1
  end.

Section Pipeline.

Variable ENCRYPTION_KEY : option string.
Variable aes_decrypt_block : bytes -> bytes -> bytes.
Variable dcmread : bytes -> option Dataset.
Variable imread_grayscale : bytes -> option (ndarray Z).
Variable uint8_of_nonfinite : float -> Z.
(** The detection network: [caffe.Net] on the contents of the topology
    and weight files, and [im_detect]. *)
Variable Net : Type.
Variable caffe_Net : bytes -> bytes -> option Net.
Variable im_detect : Net -> ndarray3 -> option (ndarray Q * ndarray Q).
Variable iou : BBox -> BBox -> Q.
Variable float32 : Q -> Q.

Definition load_net (prototxt_path model_path : string) : Py Net :=
  try_except
    (net ← (fun w =>
              or_raise (p ← files w !! prototxt_path;
                        m ← files w !! model_path;
                        caffe_Net p m)
                       "Could not open or parse the network files" w);
     logger_info ("Loaded model: " +:+ model_path);;
     mret net)
    (fun msg =>
       logger_error ("Model loading failed: " +:+ msg);;
       raise (Exception msg)).

Definition analyze_mammogram
    (image_path : string) (is_dicom : bool)
    (prototxt_path model_path : string) : Py (list Detection) :=
  try_except
    (img ← preprocess_image dcmread imread_grayscale uint8_of_nonfinite
                            image_path is_dicom;
     net ← load_net prototxt_path model_path;
     '(scores, boxes) ← or_raise (im_detect net img) "Detection failed";
     results ← or_raise (select_detections iou float32 scores boxes)
                        "index is out of bounds";
     logger_info ("Detected " +:+ pretty (length results)
                  +:+ " lesions in " +:+ image_path);;
     mret results)
    (fun msg =>
       logger_error ("Analysis failed: " +:+ msg);;
       raise (Exception msg)).

Definition main (args : Args) : Py unit :=
  try_except
    (ok ← decrypt_file ENCRYPTION_KEY aes_decrypt_block
                       (input args) (output args);
     (if negb ok then sys_exit 1 else mret tt);;
     results ← analyze_mammogram (output args) (is_dicom args)
                                 (prototxt args) (model args);
     timestamp ← datetime_now;
     print_json (SuccessReport results (input args) timestamp);;
     os_remove (output args);;
     logger_info ("Cleaned up: " +:+ output args))
    (fun msg =>
       timestamp ← datetime_now;
       print_json (ErrorReport msg (input args) timestamp);;
       sys_exit 1).

End Pipeline.

Arguments load_net {Net} caffe_Net prototxt_path model_path.
Arguments analyze_mammogram dcmread imread_grayscale uint8_of_nonfinite
  {Net} caffe_Net im_detect iou float32
  image_path is_dicom prototxt_path model_path.
Arguments main ENCRYPTION_KEY aes_decrypt_block dcmread imread_grayscale
  uint8_of_nonfinite {Net} caffe_Net im_detect iou float32 args.

(** The world after a successful decryption. *)
Definition decrypted_world (args : Args) (d : bytes) (w : World) : World :=
  emit (LogLine "INFO"
          ("Decrypted: " +:+ input args +:+ " -> " +:+ output args))
       (set_files (<[output args := d]> (files w)) w).

(** ** Vocabulary of the statements *)

(** The reading of "strips exactly N trailing bytes": the output followed
    by N more bytes is the plaintext, N being the value of its last
    byte. *)
Definition strips_exactly (d out : bytes) : Prop :=
  exists pad suffix,
    last d = Some pad /\ length suffix = Byte.to_nat pad /\ d = out ++ suffix.

(** [w'] differs from [w] by log lines only. *)
Definition quiet (w w' : World) : Prop :=
  files w' = files w /\ may_write w' = may_write w
  /\ may_remove w' = may_remove w /\ now w' = now w
  /\ exists logs, stdout w' = stdout w ++ logs /\ json_lines logs = [].

(** A computation that only logs and never exits the process. *)
Definition benign {A} (m : Py A) : Prop :=
  forall w, quiet w (m w).2 /\ forall code, (m w).1 <> Raise (SystemExit code).

(** ** A worked instance *)

(** Each byte of the block is combined with the first byte of the key.
    The transformation is its own inverse and keeps the block length,
    which is all that Part II asks of AES. *)
Definition toy_block (key c : bytes) : bytes :=
  map (fun b => byte_xor b (default x00 (head key))) c.

Definition demo_key : string :=
  "2a0102030405060708090a0b0c0d0e0f101112131415161718191A1B1C1D1E1F".

Definition demo_iv : bytes := replicate 16 xa5.

(** A file whose single ciphertext block decrypts to thirteen bytes
    followed by 03 03 03. *)
Definition demo_blob : bytes :=
  demo_iv ++ map (fun b => byte_xor (byte_xor b xa5) x2a)
                 (replicate 13 x41 ++ replicate 3 x03).

(** A 2 x 2 source image with pixels 10, 30, 50 and 70. *)
Definition demo_pixels : ndarray Z :=
  {| shape0 := 2; shape1 := 2;
     item := fun i j => Z.of_nat (40 * i + 20 * j + 10) |}.

Definition demo_imread (data : bytes) : option (ndarray Z) :=
  match data with [] => None | _ => Some demo_pixels end.

Definition demo_dcmread (data : bytes) : option Dataset :=
  match data with
  | [] => None
  | _ => Some {| pixel_array := demo_pixels;
                 pixel_dtype := uint16;
                 PhotometricInterpretation := Some "MONOCHROME1" |}
  end.

Definition demo_nonfinite (x : float) : Z := 0.

Definition demo_caffe_Net (prototxt weights : bytes) : option unit :=
  match weights with [] => None | _ => Some tt end.

(** Intersection over union of two boxes, on exact rationals. *)
Definition demo_iou (a b : BBox) : Q :=
  let pos (q : Q) := if Qle_bool 0 q then q else 0%Q in
  let lo (p q : Q) := if Qle_bool p q then p else q in
  let hi (p q : Q) := if Qle_bool p q then q else p in
  let iw := pos (lo (x_max a) (x_max b) - hi (x_min a) (x_min b))%Q in
  let ih := pos (lo (y_max a) (y_max b) - hi (y_min a) (y_min b))%Q in
  let area (c : BBox) := ((x_max c - x_min c) * (y_max c - y_min c))%Q in
  (iw * ih / (area a + area b - iw * ih))%Q.

(** Three candidate boxes for the lesion class: one at 0.95, one at 0.90
    that overlaps it, one elsewhere at 0.79. *)
Definition demo_rows : list (list Q) :=
  [ [ 10;  10;  50;  50; 95 # 100];
    [ 12;  12;  52;  52; 90 # 100];
    [100; 100; 120; 120; 79 # 100] ]%Q.

Definition demo_scores : ndarray Q :=
  {| shape0 := 3; shape1 := 2;
     item := fun i j =>
               let s := nth 4 (nth i demo_rows []) 0%Q in
               if (j =? 1)%nat then s else (1 - s)%Q |}.

Definition demo_boxes : ndarray Q :=
  {| shape0 := 3; shape1 := 8;
     item := fun i j =>
               if (j <? 4)%nat then 0%Q
               else nth (j - 4) (nth i demo_rows []) 0%Q |}.

Definition demo_im_detect (net : unit) (im : ndarray3)
  : option (ndarray Q * ndarray Q) :=
  Some (demo_scores, demo_boxes).

(** One box only, at 0.79. *)
Definition low_im_detect (net : unit) (im : ndarray3)
  : option (ndarray Q * ndarray Q) :=
  Some ({| shape0 := 1; shape1 := 2;
           item := fun i j => if (j =? 1)%nat then 79 # 100 else 21 # 100 |},
        {| shape0 := 1; shape1 := 8;
           item := fun i j => nth (j - 4) [100; 100; 120; 120]%Q 0%Q |}).

Definition demo_float32 (q : Q) : Q := q.

Definition demo_plain : bytes := replicate 13 x41.

Definition demo_args : Args :=
  {| input := "scan.enc"; output := "scan.png";
     prototxt := "deploy.prototxt"; model := "lesion.caffemodel";
     is_dicom := false |}.

(** A world holding the encrypted scan and the network files. *)
Definition demo_start (removable : bool) : World :=
  {| files := {[ "scan.enc" := demo_blob;
                 "deploy.prototxt" := [x01];
                 "lesion.caffemodel" := [x02] ]};
     may_write := fun _ => true;
     may_remove := fun _ => removable;
     stdout := [];
     now := "2024-05-01T10:00:00" |}.

Definition demo_detection : Detection :=
  {| bbox := {| x_min := 10; y_min := 10; x_max := 50; y_max := 50 |};
     confidence := 95 # 100 |}.

Definition demo_key_bytes : bytes :=
  [x2a; x01; x02; x03; x04; x05; x06; x07; x08; x09; x0a; x0b; x0c; x0d;
   x0e; x0f; x10; x11; x12; x13; x14; x15; x16; x17; x18; x19; x1a;
   x1b; x1c; x1d; x1e; x1f].

(** The plaintext of [demo_blob] before the padding is stripped. *)
Definition demo_padded : bytes := demo_plain ++ replicate 3 x03.

Definition demo_decrypt : string -> string -> Py bool :=
  decrypt_file (Some demo_key) toy_block.

Definition demo_analyze
  : string -> bool -> string -> string -> Py (list Detection) :=
  analyze_mammogram demo_dcmread demo_imread demo_nonfinite
                    demo_caffe_Net demo_im_detect demo_iou demo_float32.

Definition demo_main : Args -> Py unit :=
  main (Some demo_key) toy_block demo_dcmread demo_imread demo_nonfinite
       demo_caffe_Net demo_im_detect demo_iou demo_float32.

(** The world once [decrypt_file] has written the plaintext. *)
Definition demo_decrypted : World :=
  (demo_decrypt "scan.enc" "scan.png" (demo_start true)).2.

Definition demo_image : ndarray3 :=
  three_channels demo_nonfinite (rescale_by 70 demo_pixels).

Definition zero_pixels : ndarray Z :=
  {| shape0 := 2; shape1 := 2; item := fun _ _ => 0 |}.

Definition zero_imread (data : bytes) : option (ndarray Z) :=
  Some zero_pixels.

(** ** Further vocabulary *)

(** The key lengths [AES.new] accepts. *)
Definition aes_key_length (n : nat) : Prop :=
  n = 16%nat \/ n = 24%nat \/ n = 32%nat.

(** The [image_path] entry of a report. *)
Definition report_image_path (r : Report) : string :=
  match r with
  | SuccessReport _ p _ => p
  | ErrorReport _ p _ => p
  end.

(** What [decrypt_file] needs to succeed: a nonempty hexadecimal key of
    an AES key length, a readable input made of the IV and a positive
    whole number of blocks, and a writable output path. *)
Definition decryptable
    (ENCRYPTION_KEY : option string) (w : World) (inp outp : string) : Prop :=
  exists ks data key,
    ENCRYPTION_KEY = Some ks /\ ks <> ""
    /\ files w !! inp = Some data
    /\ bytes_fromhex ks = Some key
    /\ aes_key_length (length key)
    /\ (16 < length data)%nat
    /\ (length data mod 16 = 0)%nat
    /\ may_write w outp = true.

(** The file at [path] holds an image the preprocessing can work on: it
    can be read and decoded, a DICOM data set carries
    PhotometricInterpretation, and the pixel array has an element. *)
Definition decodable
    (dcmread : bytes -> option Dataset)
    (imread_grayscale : bytes -> option (ndarray Z))
    (w : World) (path : string) (is_dicom : bool) : Prop :=
  exists data,
    files w !! path = Some data
    /\ if is_dicom then
         exists ds,
           dcmread data = Some ds
           /\ is_Some (PhotometricInterpretation ds)
           /\ (0 < shape0 (pixel_array ds) * shape1 (pixel_array ds))%nat
       else
         exists src,
           imread_grayscale data = Some src
           /\ (0 < shape0 src * shape1 src)%nat.

(** What the handler of [preprocess_image] leaves behind. *)
Definition preprocess_failure (path msg : string) (w : World)
  : outcome ndarray3 * World :=
  (Raise (Exception msg),
   emit (LogLine "ERROR"
           ("Preprocessing failed for " +:+ path +:+ ": " +:+ msg)) w).


(** The network [caffe.Net] builds from the files at the two paths, if
    both can be read and parsed. *)
Definition network_of {Net : Type}
    (caffe_Net : bytes -> bytes -> option Net)
    (w : World) (prototxt_path model_path : string) : option Net :=
  p ← files w !! prototxt_path;
  m ← files w !! model_path;
  caffe_Net p m.

(** The world after two more log lines. *)
Definition logged (first second : Line) (w : World) : World :=
  emit second (emit first w).

(** ** Further worked instances *)

(** A 2 x 2 image with pixels 0, 85, 170 and 255. *)
Definition full_pixels : ndarray Z :=
  {| shape0 := 2; shape1 := 2;
     item := fun i j => Z.of_nat (85 * (2 * i + j)) |}.

Definition full_imread (data : bytes) : option (ndarray Z) :=
  Some full_pixels.

(** An inverted-monochrome data set whose four pixels all hold 200. *)
Definition flat_dataset : Dataset :=
  {| pixel_array := {| shape0 := 2; shape1 := 2; item := fun _ _ => 200 |};
     pixel_dtype := uint8;
     PhotometricInterpretation := Some "MONOCHROME1" |}.

Definition flat_dcmread (data : bytes) : option Dataset := Some flat_dataset.

(** The data set [demo_dcmread] decodes. *)
Definition demo_dataset : Dataset :=
  {| pixel_array := demo_pixels;
     pixel_dtype := uint16;
     PhotometricInterpretation := Some "MONOCHROME1" |}.

(** The arguments of a run whose weight file does not exist. *)
Definition faulty_args : Args :=
  {| input := "scan.enc"; output := "scan.png";
     prototxt := "deploy.prototxt"; model := "missing.caffemodel";
     is_dicom := false |}.

(** * Part II: properties *)

(** ** Tactics for running the monad *)

Ltac py_unfold :=
  unfold mbind, mret, Py_bind, Py_ret, py_bind, py_ret, try_except,
    or_raise, raise, sys_exit, logger_info, logger_error, print_json,
    datetime_now, read_file, write_file.

Ltac py_run := py_unfold; py_unfold; cbv beta.

Ltac split_N_tests :=
  repeat match goal with
    | |- context [N.leb ?a ?b] => destruct (N.leb_spec a b)
    | |- context [N.eqb ?a ?b] => destruct (N.eqb_spec a b)
    | H : context [N.leb ?a ?b] |- _ => destruct (N.leb_spec a b)
    end;
  simpl in *.

(** ** Exclusive or *)

Lemma byte_xor_cancel a b : byte_xor (byte_xor a b) b = a.
Proof.
  unfold byte_xor.
  destruct (Byte.to_bits a) as (a0 & a1 & a2 & a3 & a4 & a5 & a6 & a7) eqn:Ha.
  destruct (Byte.to_bits b) as (b0 & b1 & b2 & b3 & b4 & b5 & b6 & b7) eqn:Hb.
  rewrite Byte.to_bits_of_bits.
  rewrite <- (Byte.of_bits_to_bits a), Ha.
  repeat rewrite xorb_assoc, xorb_nilpotent, xorb_false_r.
  reflexivity.
Qed.

Lemma xor_bytes_cancel a b :
  length a = length b -> xor_bytes (xor_bytes a b) b = a.
Proof.
  unfold xor_bytes. revert b.
  induction a as [|x a IH]; intros [|y b] Hlen; simpl in *; try done.
  rewrite byte_xor_cancel, IH by lia. reflexivity.
Qed.

Lemma length_xor_bytes a b :
  length (xor_bytes a b) = Nat.min (length a) (length b).
Proof. apply length_zip_with. Qed.

(** ** Facts about the Python sequence operations *)

Lemma py_getitem_last {A} (l : list A) : py_getitem l (-1) = last l.
Proof.
  unfold py_getitem. cbn [Z.ltb Z.compare].
  destruct l as [|x l]; [reflexivity|].
  rewrite last_lookup.
  replace (0 <=? -1 + Z.of_nat (length (x :: l))) with true
    by (symmetry; apply Z.leb_le; simpl length; lia).
  replace (-1 + Z.of_nat (length (x :: l)) <? Z.of_nat (length (x :: l)))
    with true by (symmetry; apply Z.ltb_lt; lia).
  simpl andb. f_equal. simpl length. lia.
Qed.

Lemma py_slice_to_nonneg {A} (l : list A) (n : Z) :
  0 <= n -> py_slice_to l n = take (Z.to_nat n) l.
Proof.
  intros Hn. unfold py_slice_to, py_slice_bound.
  replace (n <? 0) with false by (symmetry; apply Z.ltb_ge; lia).
  destruct (Z.le_ge_cases n (Z.of_nat (length l))).
  - rewrite Z.min_l by lia. reflexivity.
  - rewrite Z.min_r, Nat2Z.id by lia.
    rewrite !take_ge by lia. reflexivity.
Qed.

Lemma py_slice_from_nonneg {A} (l : list A) (n : Z) :
  0 <= n -> py_slice_from l n = drop (Z.to_nat n) l.
Proof.
  intros Hn. unfold py_slice_from, py_slice_bound.
  replace (n <? 0) with false by (symmetry; apply Z.ltb_ge; lia).
  destruct (Z.le_ge_cases n (Z.of_nat (length l))).
  - rewrite Z.min_l by lia. reflexivity.
  - rewrite Z.min_r, Nat2Z.id by lia.
    rewrite !drop_ge by lia. reflexivity.
Qed.

(** [x[:-n]] for a positive [n] drops the last [n] elements, all of them
    when [n] exceeds the length. *)
Lemma py_slice_to_neg {A} (l : list A) (n : nat) :
  (1 <= n)%nat -> py_slice_to l (- Z.of_nat n) = take (length l - n) l.
Proof.
  intros Hn. unfold py_slice_to, py_slice_bound.
  replace (- Z.of_nat n <? 0) with true by (symmetry; apply Z.ltb_lt; lia).
  f_equal. lia.
Qed.

(** [x[:-0]] is [x[:0]]: the empty sequence. *)
Lemma py_slice_to_zero {A} (l : list A) : py_slice_to l (- 0) = [].
Proof.
  unfold py_slice_to, py_slice_bound. cbn [Z.opp Z.ltb Z.compare].
  rewrite Z.min_l by lia. apply take_0.
Qed.

Lemma strip_padding_last (d : bytes) (pad : byte) :
  last d = Some pad ->
  strip_padding d = Some (py_slice_to d (- byte_val pad)).
Proof.
  intros H. unfold strip_padding. rewrite py_getitem_last, H. reflexivity.
Qed.

(** ** Running the decryptor *)

Section DecryptorFacts.

Variable ENCRYPTION_KEY : option string.
Variable aes_decrypt_block : bytes -> bytes -> bytes.

Local Abbreviation decrypt :=
  (decrypt_file ENCRYPTION_KEY aes_decrypt_block).

(** A successful run: the output file holds the stripped plaintext and
    one line is logged. *)
Lemma decrypt_file_success w inp outp data out :
  key_unset ENCRYPTION_KEY = false ->
  files w !! inp = Some data ->
  decrypt_bytes ENCRYPTION_KEY aes_decrypt_block data = Some out ->
  may_write w outp = true ->
  decrypt inp outp w =
    (Return true,
     emit (LogLine "INFO" ("Decrypted: " +:+ inp +:+ " -> " +:+ outp))
          (set_files (<[outp := out]> (files w)) w)).
Proof.
  intros Hk Hf Hd Hw. unfold decrypt_bytes in Hd.
  unfold decrypt_file. rewrite Hk. py_unfold. rewrite Hf.
  destruct (bytes_fromhex _) as [key|]; [|discriminate]. simpl in Hd |- *.
  destruct (AES_new _ _) as [c|]; [|discriminate]. simpl in Hd |- *.
  destruct (cipher_decrypt _ _ _) as [d|]; [|discriminate].
  simpl in Hd |- *. rewrite Hd. simpl. rewrite Hw. reflexivity.
Qed.

(** [decrypt_file] never raises: it returns [False] after logging the
    failure and leaving the files alone, or [True] after writing the
    output file. *)
Lemma decrypt_file_cases w inp outp :
  (exists msg,
      decrypt inp outp w =
        (Return false, emit (LogLine "ERROR" msg) w))
  \/ (exists data out,
        key_unset ENCRYPTION_KEY = false /\
        files w !! inp = Some data /\
        decrypt_bytes ENCRYPTION_KEY aes_decrypt_block data = Some out /\
        may_write w outp = true /\
        decrypt inp outp w =
          (Return true,
           emit (LogLine "INFO" ("Decrypted: " +:+ inp +:+ " -> " +:+ outp))
                (set_files (<[outp := out]> (files w)) w))).
Proof.
  destruct (key_unset ENCRYPTION_KEY) eqn:Hk.
  { left. unfold decrypt_file. rewrite Hk. py_unfold. eauto. }
  destruct (files w !! inp) as [data|] eqn:Hf.
  2:{ left. unfold decrypt_file. rewrite Hk. py_unfold.
      rewrite Hf. eauto. }
  destruct (decrypt_bytes ENCRYPTION_KEY aes_decrypt_block data)
    as [out|] eqn:Hd.
  - destruct (may_write w outp) eqn:Hw.
    + right. exists data, out. repeat split; try done.
      by apply (decrypt_file_success _ _ _ data).
    + left. unfold decrypt_bytes in Hd.
      unfold decrypt_file. rewrite Hk. py_unfold. rewrite Hf.
      destruct (bytes_fromhex _) as [key|]; [|discriminate].
      simpl in Hd |- *.
      destruct (AES_new _ _) as [c|]; [|discriminate]. simpl in Hd |- *.
      destruct (cipher_decrypt _ _ _) as [d|]; [|discriminate].
      simpl in Hd |- *. rewrite Hd. simpl. rewrite Hw. eauto.
  - left. unfold decrypt_bytes in Hd.
    unfold decrypt_file. rewrite Hk. py_unfold. rewrite Hf.
    destruct (bytes_fromhex _) as [key|]; simpl in Hd |- *; [|eauto].
    destruct (AES_new _ _) as [c|]; simpl in Hd |- *; [|eauto].
    destruct (cipher_decrypt _ _ _) as [d|]; simpl in Hd |- *; [|eauto].
    rewrite Hd. simpl. eauto.
Qed.

End DecryptorFacts.

(** ** Blocks *)

Lemma blocks_cons_block (b rest : bytes) :
  is_block b -> blocks (b ++ rest) = b :: blocks rest.
Proof.
  unfold is_block, AES_block. intros Hb.
  destruct b as [|x b]; [discriminate|].
  change ((x :: b) ++ rest) with (x :: (b ++ rest)). simp blocks.
  change (x :: (b ++ rest)) with ((x :: b) ++ rest). unfold AES_block.
  rewrite <- Hb, take_app_length, drop_app_length. reflexivity.
Qed.

Lemma blocks_concat (bs : list bytes) :
  Forall is_block bs -> blocks (concat bs) = bs.
Proof.
  induction 1 as [|b bs Hb _ IH]; simpl; [by simp blocks|].
  rewrite blocks_cons_block, IH; done.
Qed.

Lemma concat_blocks (data : bytes) : concat (blocks data) = data.
Proof.
  funelim (blocks data); simp blocks; [reflexivity|].
  simpl concat.
  match goal with IH : concat _ = _ |- _ => rewrite IH end.
  f_equal. apply take_drop.
Qed.

Lemma whole_blocks_step (n : nat) :
  (n mod AES_block = 0)%nat -> n <> 0%nat ->
  (AES_block <= n)%nat /\ ((n - AES_block) mod AES_block = 0)%nat.
Proof.
  intros Hm Hn. apply Nat.Lcm0.mod_divide in Hm. destruct Hm as [k ->].
  destruct k as [|k]; [done|]. split; [lia|].
  replace (S k * AES_block - AES_block)%nat with (k * AES_block)%nat by lia.
  apply Nat.Div0.mod_mul.
Qed.

Lemma blocks_whole (data : bytes) :
  (length data mod AES_block = 0)%nat -> Forall is_block (blocks data).
Proof.
  funelim (blocks data); simp blocks; intros Hlen; [constructor|].
  constructor.
  - unfold is_block. rewrite length_take.
    destruct (whole_blocks_step _ Hlen) as [? _]; [done|]. lia.
  - match goal with IH : _ -> Forall _ _ |- _ => apply IH end.
    rewrite length_drop.
    destruct (whole_blocks_step _ Hlen) as [_ ?]; done.
Qed.

(** ** CBC decryption keeps the block structure *)

Section CbcFacts.

Variable aes_decrypt_block : bytes -> bytes -> bytes.
Hypothesis aes_decrypt_block_length :
  forall key c, is_block c -> is_block (aes_decrypt_block key c).

Lemma cbc_decrypt_blocks_whole key prev cs :
  is_block prev -> Forall is_block cs ->
  Forall is_block (cbc_decrypt_blocks aes_decrypt_block key prev cs).
Proof.
  intros Hp Hcs. revert prev Hp.
  induction Hcs as [|c cs Hc _ IH]; intros prev Hp; simpl; constructor.
  - unfold is_block in *. rewrite length_xor_bytes.
    rewrite aes_decrypt_block_length, Hp by done. apply Nat.min_id.
  - by apply IH.
Qed.

(** Decrypting a nonempty whole number of blocks gives a nonempty
    plaintext of the same length. *)
Lemma cipher_decrypt_whole c data :
  is_block (cipher_iv c) ->
  (length data mod AES_block = 0)%nat ->
  exists d, cipher_decrypt aes_decrypt_block c data = Some d
            /\ length d = length data.
Proof.
  intros Hiv Hlen. unfold cipher_decrypt.
  rewrite (proj2 (Nat.eqb_eq _ _) Hlen). eexists; split; [reflexivity|].
  pose proof (blocks_whole data Hlen) as Hb.
  pose proof (cbc_decrypt_blocks_whole (cipher_key c) _ _ Hiv Hb) as Hd.
  rewrite <- (concat_blocks data) at 2.
  revert Hb Hd. generalize (cipher_iv c). generalize (blocks data).
  induction l as [|b l IH]; intros prev Hb Hd; [reflexivity|].
  simpl in *. inversion Hb; inversion Hd; subst.
  rewrite !length_app. f_equal; [|by apply IH].
  unfold is_block in *. congruence.
Qed.

End CbcFacts.

(** ** Well-formed hexadecimal keys *)

Lemma hex_digit_bound c n : hex_digit c = Some n -> (n < 16)%N.
Proof.
  unfold hex_digit.
  split_N_tests; intros Hd; try discriminate; injection Hd as <-; lia.
Qed.

Lemma hex_digit_not_space c n : hex_digit c = Some n -> py_isspace c = false.
Proof.
  unfold hex_digit, py_isspace.
  split_N_tests; intros Hd; try discriminate; try reflexivity; lia.
Qed.

Lemma bytes_fromhex_all_hex (n : nat) (s : string) :
  all_hex s = true -> String.length s = (2 * n)%nat ->
  exists key, bytes_fromhex s = Some key /\ length key = n.
Proof.
  revert s. induction n as [|n IH]; intros s Hhex Hlen.
  - destruct s; [|simpl in Hlen; lia]. exists []. done.
  - destruct s as [|c [|c' s]]; simpl in Hlen; try lia.
    simpl in Hhex.
    destruct (hex_digit c) as [hi|] eqn:Hhi; [|discriminate].
    destruct (hex_digit c') as [lo|] eqn:Hlo; [|discriminate].
    destruct (IH s Hhex ltac:(lia)) as (key & Hkey & Hklen).
    pose proof (hex_digit_bound _ _ Hhi). pose proof (hex_digit_bound _ _ Hlo).
    destruct (Byte.of_N (16 * hi + lo)) as [b|] eqn:Hb.
    2:{ apply Byte.of_N_None_iff in Hb. lia. }
    exists (b :: key). split; [|simpl; lia].
    cbn [bytes_fromhex].
    rewrite (hex_digit_not_space _ _ Hhi), Hhi, Hlo, Hb, Hkey. reflexivity.
Qed.

(** ** What the decryptor writes *)

Section DecryptorTheorems.

Variable ENCRYPTION_KEY : option string.
Variable aes_decrypt_block : bytes -> bytes -> bytes.

(** C1, as the code has it: once the ciphertext is decrypted to [d],
    whose last byte has the value [N >= 1], [decrypt_file] writes [d]
    without its last [N] bytes, that is the first [len d - N] bytes:
    exactly [N] bytes are stripped when [N <= len d], and everything
    when [N > len d].  Nothing is assumed about the stripped bytes, which
    are not compared with [N]. *)
Theorem decrypt_file_strips_padding
    (w : World) (inp outp : string) (data key : bytes) (cipher : CbcCipher)
    (d : bytes) (pad : byte) :
  key_unset ENCRYPTION_KEY = false ->
  files w !! inp = Some data ->
  bytes_fromhex (default "" ENCRYPTION_KEY) = Some key ->
  AES_new key (py_slice_to data IV_LENGTH) = Some cipher ->
  cipher_decrypt aes_decrypt_block cipher (py_slice_from data IV_LENGTH)
    = Some d ->
  last d = Some pad ->
  (1 <= Byte.to_nat pad)%nat ->
  may_write w outp = true ->
  let N := Byte.to_nat pad in
  let written := take (length d - N) d in
  exists w',
    decrypt_file ENCRYPTION_KEY aes_decrypt_block inp outp w
      = (Return true, w')
    /\ files w' !! outp = Some written
    /\ ((N <= length d)%nat -> strips_exactly d written)
    /\ ((length d < N)%nat -> written = []).
Proof.
  intros Hk Hf Hkey Hc Hd Hlast Hpad Hw N written.
  assert (Hout : decrypt_bytes ENCRYPTION_KEY aes_decrypt_block data
                 = Some written).
  { unfold decrypt_bytes. rewrite Hkey. simpl. rewrite Hc. simpl.
    rewrite Hd. simpl. rewrite (strip_padding_last _ _ Hlast).
    unfold byte_val. by rewrite py_slice_to_neg. }
  eexists. split; [by apply (decrypt_file_success _ _ _ _ _ data written)|].
  split; [simpl; apply lookup_insert_eq|]. split.
  - intros Hle. exists pad, (drop (length d - N) d).
    split; [done|]. split.
    + rewrite length_drop. fold N. lia.
    + symmetry. apply take_drop.
  - intros Hlt. subst written.
    replace (length d - N)%nat with 0%nat by lia. apply take_0.
Qed.

Hypothesis aes_decrypt_block_length :
  forall key c, is_block c -> is_block (aes_decrypt_block key c).

(** C10: with a key of 64 hexadecimal characters, an input file whose
    bytes after the IV are a nonempty whole number of blocks, and an
    output path that can be written, [decrypt_file] returns [True]
    whatever the key and whatever the block decryption yields: the
    plaintext [d] it obtains is stripped by its last byte and written.
    When that byte exceeds the length of [d] the output is empty. *)
Theorem decrypt_file_accepts_any_key
    (w : World) (inp outp ks : string) (data : bytes) :
  ENCRYPTION_KEY = Some ks ->
  String.length ks = 64%nat ->
  all_hex ks = true ->
  files w !! inp = Some data ->
  py_slice_from data IV_LENGTH <> [] ->
  (length (py_slice_from data IV_LENGTH) mod AES_block = 0)%nat ->
  may_write w outp = true ->
  exists key d pad,
    bytes_fromhex ks = Some key /\ length key = 32%nat
    /\ d = concat (cbc_decrypt_blocks aes_decrypt_block key
                     (take 16 data) (blocks (drop 16 data)))
    /\ length d = (length data - 16)%nat
    /\ last d = Some pad
    /\ decrypt_file ENCRYPTION_KEY aes_decrypt_block inp outp w
       = (Return true,
          emit (LogLine "INFO" ("Decrypted: " +:+ inp +:+ " -> " +:+ outp))
               (set_files
                  (<[outp := py_slice_to d (- byte_val pad)]> (files w)) w))
    /\ ((length d < Byte.to_nat pad)%nat ->
        py_slice_to d (- byte_val pad) = []).
Proof.
  intros -> Hlen Hhex Hf Hne Hmod Hw.
  destruct (bytes_fromhex_all_hex 32 ks Hhex Hlen) as (key & Hkey & Hklen).
  unfold IV_LENGTH in *.
  rewrite py_slice_from_nonneg in Hne, Hmod by lia.
  change (Z.to_nat 16) with 16%nat in *.
  assert (Hdata : (16 < length data)%nat).
  { destruct (decide (16 < length data)%nat); [done|].
    rewrite drop_ge in Hne by lia. done. }
  set (cipher := {| cipher_key := key; cipher_iv := take 16 data |}).
  assert (Hnew : AES_new key (py_slice_to data 16) = Some cipher).
  { unfold AES_new. rewrite py_slice_to_nonneg by lia.
    change (Z.to_nat 16) with 16%nat.
    rewrite Hklen, length_take, Nat.min_l by lia. reflexivity. }
  destruct (cipher_decrypt_whole aes_decrypt_block aes_decrypt_block_length
              cipher (drop 16 data)) as (d & Hd & Hdlen).
  { unfold is_block, AES_block. simpl. rewrite length_take. lia. }
  { done. }
  rewrite length_drop in Hdlen.
  destruct (last d) as [pad|] eqn:Hlast.
  2:{ apply last_None in Hlast. subst d. simpl in Hdlen. lia. }
  exists key, d, pad.
  assert (Hd' : d = concat (cbc_decrypt_blocks aes_decrypt_block key
                              (take 16 data) (blocks (drop 16 data)))).
  { unfold cipher_decrypt in Hd. rewrite (proj2 (Nat.eqb_eq _ _) Hmod) in Hd.
    injection Hd as <-. reflexivity. }
  repeat split; try done.
  - apply (decrypt_file_success _ _ _ _ _ data); try done.
    + unfold key_unset. destruct (decide (ks = "")) as [->|]; done.
    + unfold decrypt_bytes. simpl. rewrite Hkey. simpl.
      unfold IV_LENGTH. rewrite Hnew. simpl.
      rewrite py_slice_from_nonneg by lia.
      change (Z.to_nat 16) with 16%nat. rewrite Hd. simpl.
      apply strip_padding_last, Hlast.
  - intros Hlt. unfold byte_val. destruct (Byte.to_nat pad) eqn:Hp; [lia|].
    rewrite <- Hp, py_slice_to_neg by lia.
    replace (length d - Byte.to_nat pad)%nat with 0%nat by lia.
    apply take_0.
Qed.

End DecryptorTheorems.

(** ** Padding *)

Lemma pad_byte_val (n : nat) : (n <= 255)%nat -> Byte.to_nat (pad_byte n) = n.
Proof.
  intros Hn. unfold pad_byte.
  destruct (Byte.of_nat n) as [b|] eqn:Hb; simpl.
  - by apply Byte.to_of_nat.
  - apply Byte.of_nat_None_iff in Hb. lia.
Qed.

Lemma pad_count_bounds (m : nat) :
  (1 <= AES_block - m mod AES_block <= AES_block)%nat.
Proof.
  assert (H : (m mod AES_block < AES_block)%nat)
    by (apply Nat.mod_upper_bound; discriminate).
  unfold AES_block in *. lia.
Qed.

(** The padded plaintext is a positive whole number of blocks. *)
Lemma pkcs_pad_whole (p : bytes) :
  (length (pkcs_pad p) mod AES_block = 0)%nat /\ pkcs_pad p <> [].
Proof.
  unfold pkcs_pad. pose proof (pad_count_bounds (length p)) as Hn.
  split.
  - rewrite length_app, length_replicate.
    rewrite (Nat.div_mod_eq (length p) AES_block) at 1.
    replace (AES_block * (length p `div` AES_block)
             + length p `mod` AES_block
             + (AES_block - length p `mod` AES_block))%nat
      with ((1 + length p `div` AES_block) * AES_block)%nat by lia.
    apply Nat.Div0.mod_mul.
  - intros Heq. apply (f_equal length) in Heq.
    rewrite length_app, length_replicate in Heq.
    change (length (@nil byte)) with 0%nat in Heq. lia.
Qed.

Lemma strip_padding_pkcs_pad (p : bytes) : strip_padding (pkcs_pad p) = Some p.
Proof.
  pose proof (pad_count_bounds (length p)) as Hn. unfold pkcs_pad.
  set (n := (AES_block - length p mod AES_block)%nat) in *.
  assert (Hlast : last (p ++ replicate n (pad_byte n)) = Some (pad_byte n)).
  { destruct n as [|n]; [lia|].
    rewrite replicate_S_end, app_assoc. apply last_snoc. }
  rewrite (strip_padding_last _ _ Hlast). unfold byte_val.
  rewrite pad_byte_val by (unfold AES_block in Hn; lia).
  rewrite py_slice_to_neg by lia.
  rewrite length_app, length_replicate.
  replace (length p + n - n)%nat with (length p) by lia.
  by rewrite take_app_length.
Qed.

Lemma length_concat_blocks (bs : list bytes) :
  Forall is_block bs -> length (concat bs) = (length bs * AES_block)%nat.
Proof.
  induction 1 as [|b bs Hb _ IH]; simpl; [done|].
  rewrite length_app, IH, Hb. reflexivity.
Qed.

(** ** Round trip *)

Section RoundTrip.

Variable ENCRYPTION_KEY : option string.
Variables aes_encrypt_block aes_decrypt_block : bytes -> bytes -> bytes.

Hypothesis aes_encrypt_block_length :
  forall key b, is_block b -> is_block (aes_encrypt_block key b).
Hypothesis aes_decrypt_encrypt :
  forall key b, is_block b ->
                aes_decrypt_block key (aes_encrypt_block key b) = b.

Lemma cbc_encrypt_blocks_whole key prev ps :
  is_block prev -> Forall is_block ps ->
  Forall is_block (cbc_encrypt_blocks aes_encrypt_block key prev ps).
Proof.
  intros Hp Hps. revert prev Hp.
  induction Hps as [|p ps Hb _ IH]; intros prev Hp; simpl; constructor.
  - apply aes_encrypt_block_length. unfold is_block in *.
    rewrite length_xor_bytes, Hb, Hp. apply Nat.min_id.
  - apply IH, aes_encrypt_block_length. unfold is_block in *.
    rewrite length_xor_bytes, Hb, Hp. apply Nat.min_id.
Qed.

Lemma cbc_decrypt_encrypt key prev ps :
  is_block prev -> Forall is_block ps ->
  cbc_decrypt_blocks aes_decrypt_block key prev
    (cbc_encrypt_blocks aes_encrypt_block key prev ps) = ps.
Proof.
  intros Hp Hps. revert prev Hp.
  induction Hps as [|p ps Hb _ IH]; intros prev Hp; simpl; [done|].
  assert (Hx : is_block (xor_bytes p prev)).
  { unfold is_block in *. rewrite length_xor_bytes, Hb, Hp.
    apply Nat.min_id. }
  rewrite aes_decrypt_encrypt by done.
  rewrite xor_bytes_cancel by (unfold is_block in *; congruence).
  rewrite IH by (by apply aes_encrypt_block_length). reflexivity.
Qed.

(** C7: a plaintext padded in the PKCS style, encrypted in CBC mode
    under a 32-byte key and a 16-byte IV and stored IV first, is given
    back byte for byte by [decrypt_file] run with the same key. *)
Theorem decrypt_file_round_trip
    (w : World) (inp outp ks : string) (key iv plaintext : bytes) :
  ENCRYPTION_KEY = Some ks ->
  bytes_fromhex ks = Some key ->
  length key = 32%nat ->
  is_block iv ->
  files w !! inp = Some (encrypt_blob aes_encrypt_block key iv plaintext) ->
  may_write w outp = true ->
  exists w',
    decrypt_file ENCRYPTION_KEY aes_decrypt_block inp outp w
      = (Return true, w')
    /\ files w' !! outp = Some plaintext.
Proof.
  intros -> Hkey Hklen Hiv Hf Hw.
  destruct (pkcs_pad_whole plaintext) as [Hmod Hne].
  pose proof (blocks_whole _ Hmod) as Hbs.
  pose proof (cbc_encrypt_blocks_whole key iv _ Hiv Hbs) as Hcs.
  set (cs := cbc_encrypt_blocks aes_encrypt_block key iv
               (blocks (pkcs_pad plaintext))) in *.
  eexists. split.
  - eapply decrypt_file_success; [ | exact Hf | | exact Hw].
    + unfold key_unset. destruct (decide (ks = "")) as [->|]; [|done].
      simpl in Hkey. injection Hkey as <-. discriminate.
    + unfold decrypt_bytes, encrypt_blob. fold cs. simpl. rewrite Hkey.
      simpl. unfold IV_LENGTH.
      rewrite py_slice_to_nonneg, py_slice_from_nonneg by lia.
      replace (Z.to_nat 16) with (length iv) by exact Hiv.
      rewrite take_app_length, drop_app_length.
      unfold AES_new. rewrite Hklen, Hiv. simpl.
      unfold cipher_decrypt. cbn [cipher_key cipher_iv].
      rewrite (length_concat_blocks _ Hcs), Nat.Div0.mod_mul. simpl.
      rewrite (blocks_concat _ Hcs). unfold cs.
      rewrite cbc_decrypt_encrypt by done.
      rewrite concat_blocks. apply strip_padding_pkcs_pad.
  - simpl. apply lookup_insert_eq.
Qed.

End RoundTrip.

(** ** Sorting and suppression *)

Lemma insert_desc_In c l x : In x (insert_desc c l) -> x = c \/ In x l.
Proof.
  induction l as [|d l IH]; simpl.
  - intros [<-|[]]. by left.
  - destruct (Qle_bool (cand_score d) (cand_score c)); simpl.
    + intros [<-|H]; [by left | by right].
    + intros [<-|H]; [right; by left|].
      destruct (IH H) as [->|?]; [by left | right; by right].
Qed.

Lemma insert_desc_sorted c l :
  StronglySorted desc l -> StronglySorted desc (insert_desc c l).
Proof.
  induction 1 as [|d l Hl IH Hd]; simpl.
  - repeat constructor.
  - destruct (Qle_bool (cand_score d) (cand_score c)) eqn:Hle.
    + apply Qle_bool_iff in Hle. constructor; [by constructor|].
      constructor; [exact Hle|].
      eapply Forall_impl; [exact Hd|]. unfold desc. intros x Hx.
      by apply (Qle_trans _ (cand_score d)).
    + assert (Hlt : (cand_score c < cand_score d)%Q).
      { apply Qnot_le_lt. intros Hc. apply Qle_bool_iff in Hc. congruence. }
      constructor; [exact IH|].
      apply List.Forall_forall. intros x Hx.
      destruct (insert_desc_In _ _ _ Hx) as [->|Hin].
      * unfold desc. by apply Qlt_le_weak.
      * rewrite List.Forall_forall in Hd. by apply Hd.
Qed.

Lemma sort_desc_sorted l : StronglySorted desc (sort_desc l).
Proof.
  induction l as [|c l IH]; simpl; [constructor|].
  by apply insert_desc_sorted.
Qed.

Lemma sort_desc_In l x : In x (sort_desc l) -> In x l.
Proof.
  revert x. induction l as [|c l IH]; simpl; [done|].
  intros x Hx. destruct (insert_desc_In _ _ _ Hx) as [->|?]; auto.
Qed.

Lemma StronglySorted_filter {A} (R : A -> A -> Prop) (f : A -> bool) l :
  StronglySorted R l -> StronglySorted R (List.filter f l).
Proof.
  induction 1 as [|x l Hl IH Hx]; simpl; [constructor|].
  destruct (f x); [|exact IH]. constructor; [exact IH|].
  apply List.Forall_forall. intros y Hy. apply List.filter_In in Hy as [Hy _].
  rewrite List.Forall_forall in Hx. by apply Hx.
Qed.

Lemma ForallOrdPairs_and {A} (R1 R2 : A -> A -> Prop) l :
  ForallOrdPairs R1 l -> ForallOrdPairs R2 l ->
  ForallOrdPairs (fun x y => R1 x y /\ R2 x y) l.
Proof.
  induction 1 as [|x l H1 _ IH]; intros H2; [constructor|].
  inversion H2 as [|? ? H2x H2l]; subst. constructor; [|by apply IH].
  apply List.Forall_forall. intros y Hy.
  rewrite List.Forall_forall in H1, H2x. split; auto.
Qed.

Lemma StronglySorted_ForallOrdPairs {A} (R : A -> A -> Prop) l :
  StronglySorted R l -> ForallOrdPairs R l.
Proof. induction 1; constructor; assumption. Qed.

Section SuppressionFacts.

Variable iou : BBox -> BBox -> Q.

Lemma greedy_In thresh order x :
  In x (greedy iou thresh order) -> In x order.
Proof.
  funelim (greedy iou thresh order); [done|].
  intros [<-|Hx]; [by left|]. right.
  match goal with IH : forall x, In x _ -> In x _ |- _ =>
    apply IH in Hx end.
  by apply List.filter_In in Hx as [Hx _].
Qed.

Lemma greedy_sorted (R : Candidate -> Candidate -> Prop) thresh order :
  StronglySorted R order -> StronglySorted R (greedy iou thresh order).
Proof.
  funelim (greedy iou thresh order); [done|].
  intros Hs. inversion Hs as [|? ? Hrest Hc]; subst.
  constructor.
  - match goal with IH : forall R, StronglySorted R _ -> _ |- _ =>
      apply IH end.
    by apply StronglySorted_filter.
  - apply List.Forall_forall. intros y Hy. apply greedy_In in Hy.
    apply List.filter_In in Hy as [Hy _].
    rewrite List.Forall_forall in Hc. by apply Hc.
Qed.

Lemma greedy_separated thresh order :
  ForallOrdPairs (separated iou thresh) (greedy iou thresh order).
Proof.
  funelim (greedy iou thresh order); constructor.
  - apply List.Forall_forall. intros y Hy. apply greedy_In in Hy.
    apply List.filter_In in Hy as [_ Hy]. by apply Qle_bool_iff in Hy.
  - assumption.
Qed.

Lemma nms_kept_candidate dets thresh c :
  In c (nms_kept iou dets thresh) ->
  exists i, (i < shape0 dets)%nat /\ c = candidate_of dets i.
Proof.
  intros Hc. apply greedy_In, sort_desc_In, in_map_iff in Hc.
  destruct Hc as (i & <- & Hi). apply in_seq in Hi. exists i.
  split; [lia | reflexivity].
Qed.

Lemma nms_some dets thresh keep :
  nms iou dets thresh = Some keep ->
  (shape0 dets = 0%nat /\ keep = [])
  \/ ((5 <= shape1 dets)%nat
      /\ keep = map cand_index (nms_kept iou dets thresh)).
Proof.
  unfold nms. destruct (shape0 dets =? 0)%nat eqn:H0.
  - intros [= <-]. left. by apply Nat.eqb_eq in H0.
  - destruct (shape1 dets <? 5)%nat eqn:H1; [done|].
    intros [= <-]. right. apply Nat.ltb_ge in H1. done.
Qed.

End SuppressionFacts.

(** ** From kept candidates to results *)

Lemma np_row_five {A} (a : ndarray A) i :
  shape1 a = 5%nat ->
  np_row a i = [item a i 0; item a i 1; item a i 2; item a i 3; item a i 4]%nat.
Proof. unfold np_row. intros ->. reflexivity. Qed.

Lemma collect_rows (dets : ndarray Q) (keep : list nat) :
  shape1 dets = 5%nat ->
  Forall (fun i => (i < shape0 dets)%nat) keep ->
  np_take_rows dets keep ≫= collect_results
  = Some (map to_detection
            (List.filter passes (map (candidate_of dets) keep))).
Proof.
  intros H5. unfold np_take_rows.
  induction 1 as [|i keep Hi _ IH]; [reflexivity|].
  cbn [mapM]. rewrite (proj2 (Nat.ltb_lt _ _) Hi).
  destruct (mapM _ keep) as [rows|] eqn:Hrows; [|discriminate].
  simpl in IH |- *. rewrite (np_row_five _ _ H5).
  change (py_getitem [item dets i 0%nat; item dets i 1%nat; item dets i 2%nat;
                      item dets i 3%nat; item dets i 4%nat] (-1))
    with (Some (item dets i 4%nat)).
  cbn [mbind option_bind]. unfold passes at 1. cbn [candidate_of cand_score].
  destruct (Qle_bool CONF_THRESH (item dets i 4%nat)); [|exact IH].
  rewrite IH. reflexivity.
Qed.

Section FilterFacts.

Variable iou : BBox -> BBox -> Q.
Variable float32 : Q -> Q.

Lemma class_dets_columns scores boxes dets :
  class_dets float32 scores boxes = Some dets -> (shape1 dets <= 5)%nat.
Proof.
  unfold class_dets. cbv zeta.
  assert (Hc : (shape1 (np_cols boxes (4 * 1) (4 * (1 + 1))) <= 4)%nat)
    by (unfold np_cols; cbn [shape1]; lia).
  revert Hc. generalize (np_cols boxes (4 * 1) (4 * (1 + 1))).
  intros cb Hc. unfold np_hstack_col.
  destruct (1 <? shape1 scores)%nat; [|done]. cbn [mbind option_bind].
  destruct (_ =? _)%nat; [|done]. cbn [mbind option_bind].
  intros [= <-]. cbn [shape1 np_map]. lia.
Qed.

(** The result list is the list of kept candidates, in kept order,
    without those below the confidence threshold. *)
Lemma select_detections_kept scores boxes results :
  select_detections iou float32 scores boxes = Some results ->
  exists dets,
    class_dets float32 scores boxes = Some dets
    /\ results = map to_detection
                   (List.filter passes (nms_kept iou dets NMS_THRESH)).
Proof.
  unfold select_detections.
  destruct (class_dets float32 scores boxes) as [dets|] eqn:Hd; [|done].
  cbn [mbind option_bind].
  destruct (nms iou dets NMS_THRESH) as [keep|] eqn:Hk; [|done].
  cbn [mbind option_bind]. intros Hres. exists dets. split; [done|].
  destruct (nms_some _ _ _ _ Hk) as [[H0 ->]|[H5 ->]].
  - simpl in Hres. injection Hres as <-.
    unfold nms_kept. rewrite H0. simpl. by simp greedy.
  - pose proof (class_dets_columns _ _ _ Hd).
    change (np_take_rows dets (map cand_index (nms_kept iou dets NMS_THRESH))
            ≫= collect_results = Some results) in Hres.
    rewrite collect_rows in Hres.
    + injection Hres as <-. f_equal. f_equal.
      rewrite map_map. rewrite <- (map_id (nms_kept _ _ _)) at 2.
      apply map_ext_in. intros c Hc.
      apply nms_kept_candidate in Hc as (i & _ & ->). reflexivity.
    + lia.
    + apply List.Forall_forall. intros i Hi.
      apply in_map_iff in Hi as (c & <- & Hc).
      apply nms_kept_candidate in Hc as (j & Hj & ->). exact Hj.
Qed.

(** The filter's guarantees on any result list. *)
Lemma select_detections_confident scores boxes results r :
  select_detections iou float32 scores boxes = Some results ->
  In r results -> (CONF_THRESH <= confidence r)%Q.
Proof.
  intros Hs Hr. apply select_detections_kept in Hs as (dets & _ & ->).
  apply in_map_iff in Hr as (c & <- & Hc).
  apply List.filter_In in Hc as [_ Hc]. by apply Qle_bool_iff in Hc.
Qed.

Lemma select_detections_separated scores boxes results a b :
  select_detections iou float32 scores boxes = Some results ->
  In a results -> In b results ->
  (confidence b < confidence a)%Q ->
  (iou (bbox a) (bbox b) <= NMS_THRESH)%Q.
Proof.
  intros Hs Ha Hb Hlt. apply select_detections_kept in Hs as (dets & _ & ->).
  apply in_map_iff in Ha as (ca & <- & Ha).
  apply in_map_iff in Hb as (cb & <- & Hb).
  apply List.filter_In in Ha as [Ha _]. apply List.filter_In in Hb as [Hb _].
  simpl in Hlt |- *.
  pose proof (ForallOrdPairs_and _ _ _
    (greedy_separated iou NMS_THRESH _)
    (StronglySorted_ForallOrdPairs _ _
       (greedy_sorted iou desc NMS_THRESH _
          (sort_desc_sorted
             (map (candidate_of dets) (seq 0 (shape0 dets))))))) as Hk.
  fold (nms_kept iou dets NMS_THRESH) in Hk.
  destruct (ForallOrdPairs_In Hk _ _ Ha Hb) as [->|[[Hab _]|[_ Hd]]].
  - exfalso. by apply (Qlt_irrefl (cand_score cb)).
  - exact Hab.
  - exfalso. unfold desc in Hd. by apply (Qle_not_lt _ _ Hd).
Qed.

Lemma select_detections_sorted scores boxes results :
  select_detections iou float32 scores boxes = Some results ->
  StronglySorted (fun a b => (confidence b <= confidence a)%Q) results.
Proof.
  intros Hs. apply select_detections_kept in Hs as (dets & _ & ->).
  pose proof (StronglySorted_filter desc passes _
    (greedy_sorted iou desc NMS_THRESH _
       (sort_desc_sorted
          (map (candidate_of dets) (seq 0 (shape0 dets)))))) as Hk.
  fold (nms_kept iou dets NMS_THRESH) in Hk.
  induction Hk as [|c l _ IH Hc]; simpl; constructor; [exact IH|].
  apply Forall_map. eapply Forall_impl; [exact Hc|]. done.
Qed.

End FilterFacts.

(** ** Stages that only log *)

Lemma json_lines_app (a b : list Line) :
  json_lines (a ++ b) = json_lines a ++ json_lines b.
Proof. apply omap_app. Qed.

Lemma quiet_refl w : quiet w w.
Proof.
  repeat split. exists []. by rewrite app_nil_r.
Qed.

Lemma quiet_trans w1 w2 w3 : quiet w1 w2 -> quiet w2 w3 -> quiet w1 w3.
Proof.
  intros (Hf & Hw & Hr & Hn & l1 & Hl1 & Hj1).
  intros (Hf' & Hw' & Hr' & Hn' & l2 & Hl2 & Hj2).
  repeat split; try congruence.
  exists (l1 ++ l2). split.
  - by rewrite Hl2, Hl1, app_assoc.
  - by rewrite json_lines_app, Hj1, Hj2.
Qed.

Lemma quiet_log level msg w : quiet w (emit (LogLine level msg) w).
Proof. repeat split. by exists [LogLine level msg]. Qed.

Lemma benign_ret {A} (a : A) : benign (mret a).
Proof. intros w. split; [apply quiet_refl | intros code [=]]. Qed.

Lemma benign_raise {A} msg : benign (@raise A (Exception msg)).
Proof. intros w. split; [apply quiet_refl | intros code [=]]. Qed.

Lemma benign_bind {A B} (m : Py A) (f : A -> Py B) :
  benign m -> (forall a, benign (f a)) -> benign (m ≫= f).
Proof.
  intros Hm Hf w. unfold mbind, Py_bind, py_bind.
  destruct (Hm w) as [Hq Hx]. destruct (m w) as [[a|e] w1]; simpl in *.
  - destruct (Hf a w1) as [Hq' Hx']. split; [by eapply quiet_trans|done].
  - split; [done|]. intros code [= ->]. by apply (Hx code).
Qed.

Lemma benign_or_raise {A} (o : option A) msg : benign (or_raise o msg).
Proof. destruct o; [apply benign_ret | apply benign_raise]. Qed.

Lemma benign_lookup {A} (f : World -> option A) msg :
  benign (fun w => or_raise (f w) msg w).
Proof. intros w. apply (benign_or_raise (f w) msg w). Qed.

Lemma benign_logger_info msg : benign (logger_info msg).
Proof. intros w. split; [apply quiet_log | intros code [=]]. Qed.

Lemma benign_logger_error msg : benign (logger_error msg).
Proof. intros w. split; [apply quiet_log | intros code [=]]. Qed.

Lemma benign_try_except {A} (body : Py A) handler :
  benign body -> (forall msg, benign (handler msg)) ->
  benign (try_except body handler).
Proof.
  intros Hb Hh w. unfold try_except.
  destruct (Hb w) as [Hq Hx]. destruct (body w) as [[a|[msg|code]] w1];
    simpl in *; try done.
  destruct (Hh msg w1) as [Hq' Hx']. split; [by eapply quiet_trans|done].
Qed.

Lemma benign_reraise {A} (log : string) (msg : string) :
  benign (logger_error log;; @raise A (Exception msg)).
Proof.
  apply benign_bind; [apply benign_logger_error|]. intros _.
  apply benign_raise.
Qed.

Create HintDb benign.

#[local] Hint Resolve benign_ret benign_raise benign_or_raise benign_lookup
  benign_logger_info benign_logger_error benign_reraise : benign.

Section PipelineFacts.

Variable ENCRYPTION_KEY : option string.
Variable aes_decrypt_block : bytes -> bytes -> bytes.
Variable dcmread : bytes -> option Dataset.
Variable imread_grayscale : bytes -> option (ndarray Z).
Variable uint8_of_nonfinite : float -> Z.
Variable Net : Type.
Variable caffe_Net : bytes -> bytes -> option Net.
Variable im_detect : Net -> ndarray3 -> option (ndarray Q * ndarray Q).
Variable iou : BBox -> BBox -> Q.
Variable float32 : Q -> Q.

Local Abbreviation preprocess :=
  (preprocess_image dcmread imread_grayscale uint8_of_nonfinite).
Local Abbreviation analyze :=
  (analyze_mammogram dcmread imread_grayscale uint8_of_nonfinite
                     caffe_Net im_detect iou float32).
Local Abbreviation run_main :=
  (main ENCRYPTION_KEY aes_decrypt_block dcmread imread_grayscale
        uint8_of_nonfinite caffe_Net im_detect iou float32).

Lemma benign_rescale img : benign (rescale img).
Proof. apply benign_bind; auto with benign. Qed.

Lemma benign_preprocess_image path dicom : benign (preprocess path dicom).
Proof.
  apply benign_try_except; [|auto with benign].
  apply benign_bind; [|auto with benign].
  destruct dicom.
  - apply benign_bind; [apply benign_lookup|]. intros data.
    apply benign_bind; [auto with benign|]. intros ds.
    apply benign_bind; [auto with benign|]. intros pi.
    apply benign_bind; [|intros; apply benign_rescale].
    destruct (decide (pi = "MONOCHROME1")); [|auto with benign].
    apply benign_bind; auto with benign.
  - apply benign_bind; [apply benign_lookup|].
    intros; apply benign_rescale.
Qed.

Lemma benign_load_net p m : benign (load_net caffe_Net p m).
Proof.
  apply benign_try_except; [|auto with benign].
  apply benign_bind; [apply benign_lookup|]. intros net.
  apply benign_bind; auto with benign.
Qed.

Lemma benign_analyze_mammogram path dicom p m :
  benign (analyze path dicom p m).
Proof.
  apply benign_try_except; [|auto with benign].
  apply benign_bind; [apply benign_preprocess_image|]. intros img.
  apply benign_bind; [apply benign_load_net|]. intros net.
  apply benign_bind; [auto with benign|]. intros [scores boxes].
  apply benign_bind; [auto with benign|]. intros results.
  apply benign_bind; auto with benign.
Qed.

End PipelineFacts.

Lemma json_lines_quiet w w' :
  quiet w w' -> json_lines (stdout w') = json_lines (stdout w).
Proof.
  intros (_ & _ & _ & _ & logs & -> & Hl).
  by rewrite json_lines_app, Hl, app_nil_r.
Qed.

Lemma json_lines_emit_log level msg w :
  json_lines (stdout (emit (LogLine level msg) w)) = json_lines (stdout w).
Proof. simpl. by rewrite json_lines_app, app_nil_r. Qed.

Lemma json_lines_emit_json r w :
  json_lines (stdout (emit (JsonLine r) w)) = json_lines (stdout w) ++ [r].
Proof. simpl. by rewrite json_lines_app. Qed.

(** ** The runs of [main] *)

Section MainFacts.

Variable ENCRYPTION_KEY : option string.
Variable aes_decrypt_block : bytes -> bytes -> bytes.
Variable dcmread : bytes -> option Dataset.
Variable imread_grayscale : bytes -> option (ndarray Z).
Variable uint8_of_nonfinite : float -> Z.
Variable Net : Type.
Variable caffe_Net : bytes -> bytes -> option Net.
Variable im_detect : Net -> ndarray3 -> option (ndarray Q * ndarray Q).
Variable iou : BBox -> BBox -> Q.
Variable float32 : Q -> Q.

Local Abbreviation decrypt :=
  (decrypt_file ENCRYPTION_KEY aes_decrypt_block).
Local Abbreviation analyze :=
  (analyze_mammogram dcmread imread_grayscale uint8_of_nonfinite
                     caffe_Net im_detect iou float32).
Local Abbreviation run_main :=
  (main ENCRYPTION_KEY aes_decrypt_block dcmread imread_grayscale
        uint8_of_nonfinite caffe_Net im_detect iou float32).

(** The four ways a run of [main] can go. *)
Lemma main_cases (args : Args) (w : World) :
  (exists msg,
      decrypt (input args) (output args) w
        = (Return false, emit (LogLine "ERROR" msg) w)
      /\ run_main args w
         = (Raise (SystemExit 1), emit (LogLine "ERROR" msg) w))
  \/ (exists d r w2,
        decrypt (input args) (output args) w
          = (Return true, decrypted_world args d w)
        /\ analyze (output args) (is_dicom args) (prototxt args)
                   (model args) (decrypted_world args d w) = (r, w2)
        /\ quiet (decrypted_world args d w) w2
        /\ match r with
           | Raise (SystemExit _) => False
           | Raise (Exception msg) =>
               run_main args w
               = (Raise (SystemExit 1),
                  emit (JsonLine (ErrorReport msg (input args) (now w))) w2)
           | Return results =>
               let w3 := emit (JsonLine (SuccessReport results (input args)
                                                       (now w))) w2 in
               if may_remove w (output args) then
                 run_main args w
                 = (Return tt,
                    emit (LogLine "INFO" ("Cleaned up: " +:+ output args))
                         (set_files (delete (output args) (files w2)) w3))
               else
                 run_main args w
                 = (Raise (SystemExit 1),
                    emit (JsonLine
                            (ErrorReport (msg_denied (output args))
                                         (input args) (now w))) w3)
           end).
Proof.
  destruct (decrypt_file_cases ENCRYPTION_KEY aes_decrypt_block w
              (input args) (output args))
    as [(msg & Hdec)|(data & d & _ & _ & _ & _ & Hdec)].
  - left. exists msg. split; [exact Hdec|].
    unfold main, try_except, mbind, Py_bind, py_bind. rewrite Hdec.
    reflexivity.
  - right. fold (decrypted_world args d w) in Hdec.
    destruct (analyze (output args) (is_dicom args) (prototxt args)
                (model args) (decrypted_world args d w)) as [r w2] eqn:Ha.
    pose proof (benign_analyze_mammogram dcmread imread_grayscale
                  uint8_of_nonfinite Net caffe_Net im_detect iou float32
                  (output args) (is_dicom args) (prototxt args) (model args)
                  (decrypted_world args d w)) as [Hq Hx].
    rewrite Ha in Hq, Hx. simpl in Hq, Hx.
    exists d, r, w2.
    split; [exact Hdec|]. split; [exact Ha|]. split; [exact Hq|].
    destruct Hq as (Hf & Hwr & Hrm & Hnow & _).
    simpl in Hf, Hwr, Hrm, Hnow.
    destruct r as [results|[msg|code]].
    + unfold main, try_except, mbind, Py_bind, py_bind. rewrite Hdec.
      cbn [negb]. unfold mret, Py_ret, py_ret. rewrite Ha.
      unfold datetime_now, print_json, logger_info, sys_exit, raise,
        os_remove.
      cbn [files may_remove now emit set_files].
      rewrite Hf, lookup_insert_eq, Hrm, Hnow.
      destruct (may_remove w (output args)); [reflexivity|].
      cbn [now emit]. rewrite Hnow. reflexivity.
    + unfold main, try_except, mbind, Py_bind, py_bind. rewrite Hdec.
      cbn [negb]. unfold mret, Py_ret, py_ret. rewrite Ha.
      unfold datetime_now, print_json, sys_exit, raise. by rewrite Hnow.
    + by apply (Hx code).
Qed.

(** C5: when [decrypt_file] returns [False] the process exits with
    status 1 and prints no JSON document; a missing (or empty) key makes
    [decrypt_file] return [False], and the run then leaves every file as
    it was, so no plaintext file is created. *)
Theorem main_decrypt_failure (args : Args) (w : World) :
  (forall w1,
      decrypt (input args) (output args) w = (Return false, w1) ->
      exit_status (run_main args w).1 = 1
      /\ exit_status (run_main args w).1 <> 0
      /\ json_lines (stdout (run_main args w).2) = json_lines (stdout w))
  /\ (key_unset ENCRYPTION_KEY = true ->
      (decrypt (input args) (output args) w).1 = Return false
      /\ files (run_main args w).2 = files w).
Proof.
  split.
  - intros w1 Hdec.
    destruct (main_cases args w) as [(msg & _ & ->)|(d & r & w2 & Hd & _)].
    + simpl. rewrite json_lines_app, app_nil_r. done.
    + rewrite Hd in Hdec. discriminate.
  - intros Hk.
    assert (Hdec : decrypt (input args) (output args) w
                   = (Return false,
                      emit (LogLine "ERROR"
                              ("Decryption failed: "
                               +:+ "MAMMOGRAM_ENCRYPTION_KEY not set")) w)).
    { unfold decrypt_file. rewrite Hk. reflexivity. }
    destruct (main_cases args w) as [(msg & _ & ->)|(d & r & w2 & Hd & _)].
    + rewrite Hdec. done.
    + rewrite Hd in Hdec. discriminate.
Qed.

(** C4, as the code has it: when the removal of the plaintext file is
    not refused, a run prints no JSON document if [decrypt_file] returns
    [False], and otherwise exactly one: the success record carrying the
    whole result list of [analyze_mammogram] if the analysis returns, the
    error record carrying its message if the analysis raises. *)
Theorem main_prints_one_report (args : Args) (w : World) :
  may_remove w (output args) = true ->
  exists b w1,
    decrypt (input args) (output args) w = (Return b, w1)
    /\ if b then
         exists rep,
           json_lines (stdout (run_main args w).2)
             = json_lines (stdout w) ++ [rep]
           /\ match analyze (output args) (is_dicom args) (prototxt args)
                            (model args) w1 with
              | (Return results, _) =>
                  rep = SuccessReport results (input args) (now w)
                  /\ exit_status (run_main args w).1 = 0
              | (Raise (Exception msg), _) =>
                  rep = ErrorReport msg (input args) (now w)
                  /\ exit_status (run_main args w).1 = 1
              | (Raise (SystemExit _), _) => False
              end
       else
         json_lines (stdout (run_main args w).2) = json_lines (stdout w)
         /\ exit_status (run_main args w).1 = 1.
Proof.
  intros Hrm.
  destruct (main_cases args w)
    as [(msg & Hd & ->)|(d & r & w2 & Hd & Ha & Hq & Hr)].
  - eexists false, _. split; [exact Hd|]. simpl.
    by rewrite json_lines_app, app_nil_r.
  - eexists true, _. split; [exact Hd|]. rewrite Ha.
    pose proof (json_lines_quiet _ _ Hq) as Hj.
    unfold decrypted_world in Hj at 1. rewrite json_lines_emit_log in Hj.
    simpl in Hj.
    destruct r as [results|[msg|code]]; [| |done].
    + simpl in Hr. rewrite Hrm in Hr. rewrite Hr. cbn [fst snd].
      eexists. split; [|done].
      rewrite json_lines_emit_log. simpl stdout.
      by rewrite json_lines_app, Hj.
    + rewrite Hr. cbn [fst snd]. eexists. split; [|done].
      by rewrite json_lines_emit_json, Hj.
Qed.

(** The cleanup invariant where it holds: with the removal not refused,
    a run that prints a success record ends without the plaintext file;
    and whenever a run prints an error record, the plaintext file
    written by [decrypt_file] is still there. *)
Lemma main_cleanup (args : Args) (w : World) :
  stdout w = [] ->
  (may_remove w (output args) = true ->
   forall results ip ts,
     In (SuccessReport results ip ts)
        (json_lines (stdout (run_main args w).2)) ->
     files (run_main args w).2 !! output args = None)
  /\ (forall msg ip ts,
        In (ErrorReport msg ip ts) (json_lines (stdout (run_main args w).2)) ->
        is_Some (files (run_main args w).2 !! output args)).
Proof.
  intros Hout.
  destruct (main_cases args w)
    as [(msg & Hd & ->)|(d & r & w2 & Hd & Ha & Hq & Hr)].
  - simpl. rewrite Hout. simpl. split; [intros _ ? ? ? []|intros ? ? ? []].
  - pose proof (json_lines_quiet _ _ Hq) as Hj.
    unfold decrypted_world in Hj at 1. rewrite json_lines_emit_log in Hj.
    simpl in Hj. rewrite Hout in Hj. simpl in Hj.
    destruct Hq as (Hf & _). simpl in Hf.
    destruct r as [results|[msg|code]]; [| |done].
    + simpl in Hr.
      destruct (may_remove w (output args)); rewrite Hr; cbn [fst snd].
      * split.
        -- intros _ ? ? ? _. simpl. apply lookup_delete_eq.
        -- intros ? ? ?. rewrite json_lines_emit_log. simpl stdout.
           rewrite json_lines_app, Hj. simpl. intros [[=]|[]].
      * split; [done|]. intros _ _ _ _. simpl.
        rewrite Hf, lookup_insert_eq. eauto.
    + rewrite Hr. cbn [fst snd]. split.
      * intros _ ? ? ?. rewrite json_lines_emit_json, Hj. simpl.
        intros [[=]|[]].
      * intros _ _ _ _. simpl. rewrite Hf, lookup_insert_eq. eauto.
Qed.

End MainFacts.

(** ** The normalized image *)

Lemma np_elements_length {A} (a : ndarray A) :
  length (np_elements a) = (shape0 a * shape1 a)%nat.
Proof.
  unfold np_elements.
  assert (H : forall l : list nat,
             length (flat_map (np_row a) l) = (length l * shape1 a)%nat).
  { induction l as [|i l IH]; simpl; [done|].
    rewrite length_app, IH. unfold np_row.
    by rewrite length_map, length_seq. }
  by rewrite H, length_seq.
Qed.

Lemma np_elements_In {A} (a : ndarray A) x :
  In x (np_elements a) ->
  exists i j, (i < shape0 a)%nat /\ (j < shape1 a)%nat /\ x = item a i j.
Proof.
  unfold np_elements, np_row. intros H.
  apply in_flat_map in H as (i & Hi & H).
  apply in_map_iff in H as (j & <- & Hj).
  apply in_seq in Hi. apply in_seq in Hj. exists i, j. repeat split; lia.
Qed.

Lemma fold_max_zero (l : list Z) :
  Forall (fun x => x = 0) l -> fold_left Z.max l 0 = 0.
Proof. induction 1 as [|x l -> _ IH]; simpl; [done|exact IH]. Qed.

(** The maximum of an array of zeros with at least one element is 0. *)
Lemma np_max_zero (a : ndarray Z) :
  (0 < shape0 a * shape1 a)%nat ->
  (forall i j, (i < shape0 a)%nat -> (j < shape1 a)%nat -> item a i j = 0) ->
  np_max a = Some 0.
Proof.
  intros Hsize Hzero. unfold np_max.
  assert (Hall : Forall (fun x => x = 0) (np_elements a)).
  { apply List.Forall_forall. intros x Hx.
    apply np_elements_In in Hx as (i & j & Hi & Hj & ->). by apply Hzero. }
  pose proof (np_elements_length a) as Hlen.
  destruct (np_elements a) as [|x xs]; [simpl in Hlen; lia|].
  inversion Hall as [|? ? -> Hxs]; subst. by rewrite fold_max_zero.
Qed.

Section ImagingFacts.

Variable dcmread : bytes -> option Dataset.
Variable imread_grayscale : bytes -> option (ndarray Z).
Variable uint8_of_nonfinite : float -> Z.

Local Abbreviation preprocess :=
  (preprocess_image dcmread imread_grayscale uint8_of_nonfinite).
Local Abbreviation uint8 := (to_uint8 uint8_of_nonfinite).

Lemma to_uint8_range x : 0 <= uint8 x <= 255.
Proof.
  unfold to_uint8.
  destruct x; match goal with |- _ <= ?a mod 256 <= _ =>
    pose proof (Z.mod_pos_bound a 256 ltac:(lia)) end; lia.
Qed.

Lemma three_channels_item img i j k :
  item3 (three_channels uint8_of_nonfinite img) i j k
  = if (k <? 3)%nat then uint8 (item img i j) else 0.
Proof.
  unfold three_channels, set_channel, np_zeros3. cbn [item3].
  destruct k as [|[|[|k]]]; reflexivity.
Qed.

Lemma rescale_returns img w f w' :
  rescale img w = (Return f, w') ->
  exists m, np_max img = Some m /\ f = rescale_by m img /\ w' = w.
Proof.
  unfold rescale. py_unfold. destruct (np_max img) as [m|]; simpl; [|done].
  intros [= <- <-]. by exists m.
Qed.

(** What a returning run of [preprocess_image] computed. *)
Ltac returned_image :=
  match goal with
  | |- context [set_channel _ 2 ?f _] =>
      eexists _, f; split; [reflexivity|]; repeat split; reflexivity
  end.

Lemma preprocess_image_returns path dicom w im w' :
  preprocess path dicom w = (Return im, w') ->
  exists src img,
    source_pixels dcmread imread_grayscale w path dicom = Some src
    /\ shape0 img = shape0 src /\ shape1 img = shape1 src
    /\ im = three_channels uint8_of_nonfinite img.
Proof.
  unfold preprocess_image, source_pixels.
  destruct dicom; py_run;
    (destruct (files w !! path) as [data|] eqn:Hf; simpl; [|done]).
  - destruct (dcmread data) as [ds|]; simpl; [|done].
    destruct (PhotometricInterpretation ds) as [pi|]; simpl; [|done].
    destruct (decide (pi = "MONOCHROME1")).
    + destruct (np_max (pixel_array ds)) as [m|]; simpl; [|done].
      destruct (rescale _ _) as [[f|ex] w1] eqn:Hr; simpl.
      * apply rescale_returns in Hr as (m' & _ & -> & ->).
        intros [= <- <-]. returned_image.
      * destruct ex; done.
    + destruct (rescale _ _) as [[f|ex] w1] eqn:Hr; simpl.
      * apply rescale_returns in Hr as (m' & _ & -> & ->).
        intros [= <- <-]. returned_image.
      * destruct ex; done.
  - destruct (imread_grayscale data) as [src|]; simpl; [|done].
    destruct (rescale _ _) as [[f|ex] w1] eqn:Hr; simpl.
    + apply rescale_returns in Hr as (m' & _ & -> & ->).
      intros [= <- <-]. returned_image.
    + destruct ex; done.
Qed.

(** C8: an image returned by [preprocess_image] has the height and width
    of the decoded source, three channels equal to one another at every
    pixel, and 8-bit values, between 0 and 255. *)
Theorem preprocess_image_normalized
    (path : string) (dicom : bool) (w w' : World) (im : ndarray3) :
  preprocess path dicom w = (Return im, w') ->
  exists src,
    source_pixels dcmread imread_grayscale w path dicom = Some src
    /\ dim0 im = shape0 src /\ dim1 im = shape1 src /\ dim2 im = 3%nat
    /\ (forall i j, item3 im i j 0 = item3 im i j 1
                    /\ item3 im i j 1 = item3 im i j 2)
    /\ (forall i j k, 0 <= item3 im i j k <= 255).
Proof.
  intros H.
  apply preprocess_image_returns in H as (src & img & Hsrc & H0 & H1 & ->).
  exists src. split; [exact Hsrc|].
  split; [exact H0|]. split; [exact H1|]. split; [reflexivity|]. split.
  - intros i j. by rewrite !three_channels_item.
  - intros i j k. rewrite three_channels_item.
    destruct (k <? 3)%nat; [apply to_uint8_range | lia].
Qed.

(** C9: on an image of zeros (with at least one pixel) nothing stands
    between the maximum and the division.  The maximum is 0, every
    quotient is the division of 0 by that 0, which is NaN, and
    [preprocess_image] returns the image converted from those NaN, on
    the DICOM path (inverted or not) as on the raster path. *)
Theorem preprocess_image_zero_divisor
    (path : string) (dicom : bool) (w : World) (data : bytes)
    (src : ndarray Z) :
  files w !! path = Some data ->
  (if dicom
   then exists ds, dcmread data = Some ds /\ pixel_array ds = src
                   /\ is_Some (PhotometricInterpretation ds)
   else imread_grayscale data = Some src) ->
  (0 < shape0 src * shape1 src)%nat ->
  (forall i j, (i < shape0 src)%nat -> (j < shape1 src)%nat ->
               item src i j = 0) ->
  np_max src = Some 0
  /\ np_true_divide (255 * inject_Z 0)%Q 0 = NaN
  /\ exists img,
      shape0 img = shape0 src /\ shape1 img = shape1 src
      /\ (forall i j, (i < shape0 src)%nat -> (j < shape1 src)%nat ->
                      item img i j = 0)
      /\ rescale img w = (Return (rescale_by 0 img), w)
      /\ preprocess path dicom w
         = (Return (three_channels uint8_of_nonfinite (rescale_by 0 img)), w)
      /\ (forall i j, (i < shape0 src)%nat -> (j < shape1 src)%nat ->
                      item (rescale_by 0 img) i j
                      = np_true_divide (255 * inject_Z 0)%Q 0).
Proof.
  intros Hf Hsrc Hsize Hzero.
  pose proof (np_max_zero src Hsize Hzero) as Hmax.
  split; [exact Hmax|]. split; [reflexivity|].
  assert (Hrescale : forall img,
             shape0 img = shape0 src -> shape1 img = shape1 src ->
             (forall i j, (i < shape0 src)%nat -> (j < shape1 src)%nat ->
                          item img i j = 0) ->
             rescale img w = (Return (rescale_by 0 img), w)).
  { intros img H0 H1 Hz. unfold rescale. py_unfold.
    rewrite np_max_zero; [reflexivity| |]; rewrite H0, H1; done. }
  destruct dicom.
  - destruct Hsrc as (ds & Hds & <- & [pi Hpi]).
    destruct (decide (pi = "MONOCHROME1")) as [Hm|Hm].
    + set (inverted := np_map (fun v => wrap (pixel_dtype ds) (0 - v))
                              (pixel_array ds)).
      exists inverted.
      assert (Hz : forall i j, (i < shape0 (pixel_array ds))%nat ->
                               (j < shape1 (pixel_array ds))%nat ->
                               item inverted i j = 0).
      { intros i j Hi Hj. simpl. rewrite Hzero by done.
        by destruct (pixel_dtype ds). }
      split; [reflexivity|]. split; [reflexivity|]. split; [exact Hz|].
      split; [by apply Hrescale|]. split.
      * unfold preprocess_image. py_unfold. rewrite Hf. simpl.
        rewrite Hds. simpl. rewrite Hpi. simpl.
        destruct (decide (pi = "MONOCHROME1")); [|done].
        rewrite Hmax. simpl.
        fold inverted.
        rewrite (Hrescale inverted eq_refl eq_refl Hz). reflexivity.
      * intros i j Hi Hj. unfold rescale_by.
        cbn [item np_map]. by rewrite (Hz i j Hi Hj).
    + exists (pixel_array ds).
      split; [reflexivity|]. split; [reflexivity|]. split; [exact Hzero|].
      split; [by apply Hrescale|]. split.
      * unfold preprocess_image. py_unfold. rewrite Hf. simpl.
        rewrite Hds. simpl. rewrite Hpi. simpl.
        destruct (decide (pi = "MONOCHROME1")); [done|].
        rewrite (Hrescale _ eq_refl eq_refl Hzero). reflexivity.
      * intros i j Hi Hj. unfold rescale_by. simpl. by rewrite Hzero.
  - exists src.
    split; [reflexivity|]. split; [reflexivity|]. split; [exact Hzero|].
    split; [by apply Hrescale|]. split.
    + unfold preprocess_image. py_unfold. rewrite Hf. simpl.
      rewrite Hsrc. simpl.
      rewrite (Hrescale _ eq_refl eq_refl Hzero). reflexivity.
    + intros i j Hi Hj. unfold rescale_by. simpl. by rewrite Hzero.
Qed.

End ImagingFacts.

(** ** The results of an analysis *)

Section AnalysisTheorems.

Variable dcmread : bytes -> option Dataset.
Variable imread_grayscale : bytes -> option (ndarray Z).
Variable uint8_of_nonfinite : float -> Z.
Variable Net : Type.
Variable caffe_Net : bytes -> bytes -> option Net.
Variable im_detect : Net -> ndarray3 -> option (ndarray Q * ndarray Q).
Variable iou : BBox -> BBox -> Q.
Variable float32 : Q -> Q.

Local Abbreviation analyze :=
  (analyze_mammogram dcmread imread_grayscale uint8_of_nonfinite
                     caffe_Net im_detect iou float32).

(** A returning analysis went through the detector and the filter. *)
Lemma analyze_mammogram_returns path dicom p m w results w' :
  analyze path dicom p m w = (Return results, w') ->
  exists img net scores boxes,
    im_detect net img = Some (scores, boxes)
    /\ select_detections iou float32 scores boxes = Some results.
Proof.
  unfold analyze_mammogram. py_run.
  destruct (preprocess_image _ _ _ path dicom w) as [[img|[msg|c]] w1];
    [|by simpl..].
  destruct (load_net caffe_Net p m w1) as [[net|[msg|c]] w2];
    [|by simpl..].
  destruct (im_detect net img) as [[scores boxes]|] eqn:Hdet;
    [|by simpl].
  destruct (select_detections iou float32 scores boxes) as [rs|] eqn:Hsel;
    [|by simpl].
  simpl. intros [= <- <-]. by exists img, net, scores, boxes.
Qed.

(** C2: every detection in the list returned by [analyze_mammogram] has
    confidence at least 0.8, and of two returned detections the one with
    the lower confidence does not overlap the other by an IoU above
    0.3.  (The suppression is modelled from the spec.) *)
Theorem analyze_mammogram_confident_separated
    (path : string) (dicom : bool) (p m : string) (w w' : World)
    (results : list Detection) :
  analyze path dicom p m w = (Return results, w') ->
  (forall r, In r results -> (8 # 10 <= confidence r)%Q)
  /\ (forall a b,
        In a results -> In b results ->
        (confidence b < confidence a)%Q ->
        ~ (3 # 10 < iou (bbox a) (bbox b))%Q).
Proof.
  intros H.
  apply analyze_mammogram_returns in H as (img & net & scores & boxes & _ & H).
  split.
  - intros r Hr. exact (select_detections_confident _ _ _ _ _ _ H Hr).
  - intros a b Ha Hb Hlt. apply Qle_not_lt.
    exact (select_detections_separated _ _ _ _ _ _ _ H Ha Hb Hlt).
Qed.

(** C6: the list returned by [analyze_mammogram] is in descending order
    of confidence: it is the list of the candidates kept by the greedy
    suppression, in the order they were kept, without those of
    confidence below 0.8.  (The suppression is modelled from the
    spec.) *)
Theorem analyze_mammogram_sorted
    (path : string) (dicom : bool) (p m : string) (w w' : World)
    (results : list Detection) :
  analyze path dicom p m w = (Return results, w') ->
  StronglySorted (fun a b => (confidence b <= confidence a)%Q) results
  /\ exists img net scores boxes dets,
      im_detect net img = Some (scores, boxes)
      /\ class_dets float32 scores boxes = Some dets
      /\ results
         = map to_detection
             (List.filter (fun c => Qle_bool (8 # 10) (cand_score c))
                          (nms_kept iou dets (3 # 10))).
Proof.
  intros H.
  apply analyze_mammogram_returns
    in H as (img & net & scores & boxes & Hdet & H).
  split; [exact (select_detections_sorted _ _ _ _ _ H)|].
  apply select_detections_kept in H as (dets & Hd & ->).
  by exists img, net, scores, boxes, dets.
Qed.

End AnalysisTheorems.

(** ** The worked instance *)

Lemma toy_block_length key c : is_block c -> is_block (toy_block key c).
Proof. unfold is_block, toy_block. by rewrite length_map. Qed.

Lemma toy_block_involutive key c : toy_block key (toy_block key c) = c.
Proof.
  unfold toy_block. induction c as [|b c IH]; simpl; [done|].
  by rewrite byte_xor_cancel, IH.
Qed.

(** The decryptor on [demo_blob]: the last byte is 3 and three bytes are
    stripped. *)
Lemma decrypt_file_strips_padding_witness :
  let N := Byte.to_nat x03 in
  let written := take (length demo_padded - N) demo_padded in
  exists w',
    demo_decrypt "scan.enc" "scan.png" (demo_start true) = (Return true, w')
    /\ files w' !! "scan.png" = Some written
    /\ ((N <= length demo_padded)%nat -> strips_exactly demo_padded written)
    /\ ((length demo_padded < N)%nat -> written = []).
Proof.
  apply (decrypt_file_strips_padding (Some demo_key) toy_block
           (demo_start true) "scan.enc" "scan.png" demo_blob demo_key_bytes
           {| cipher_key := demo_key_bytes; cipher_iv := demo_iv |}
           demo_padded x03).
  - reflexivity.
  - vm_compute. reflexivity.
  - vm_compute. reflexivity.
  - vm_compute. reflexivity.
  - vm_compute. reflexivity.
  - vm_compute. reflexivity.
  - simpl. lia.
  - reflexivity.
Defined.

(** Stripping is not exact on every plaintext: a last byte of 0 empties a
    16-byte plaintext instead of leaving it whole, and so does a last byte
    of 255, larger than the plaintext. *)
Lemma strip_padding_not_exact :
  (strip_padding (replicate 16 x00) = Some []
   /\ ~ strips_exactly (replicate 16 x00) [])
  /\ (strip_padding (replicate 15 x00 ++ [xff]) = Some []
      /\ ~ strips_exactly (replicate 15 x00 ++ [xff]) []).
Proof.
  split; (split; [reflexivity|]).
  - intros (pad & suffix & Hlast & Hlen & Heq).
    injection Hlast as <-. simpl in Heq. subst suffix. discriminate.
  - intros (pad & suffix & Hlast & Hlen & Heq).
    injection Hlast as <-. simpl in Heq. subst suffix. discriminate.
Qed.

(** A plaintext ending in a zero byte is stripped to nothing. *)
Lemma strip_padding_zero (d : bytes) :
  last d = Some x00 -> strip_padding d = Some [].
Proof.
  intros H. rewrite (strip_padding_last _ _ H). f_equal.
  apply py_slice_to_zero.
Qed.

(** The same through [decrypt_file]: this file decrypts to sixteen zero
    bytes, and the output file is written empty. *)
Example decrypt_file_zero_pad :
  let blob := demo_iv ++ replicate 16 x8f in
  let w := set_files {[ "scan.enc" := blob ]} (demo_start true) in
  decrypt_bytes (Some demo_key) toy_block blob = Some []
  /\ cipher_decrypt toy_block
       {| cipher_key := demo_key_bytes; cipher_iv := demo_iv |}
       (replicate 16 x8f) = Some (replicate 16 x00)
  /\ (demo_decrypt "scan.enc" "scan.png" w).1 = Return true
  /\ files (demo_decrypt "scan.enc" "scan.png" w).2 !! "scan.png" = Some [].
Proof. vm_compute. repeat split. Qed.

(** The decryptor on [demo_blob] under [demo_key]. *)
Lemma decrypt_file_accepts_any_key_witness :
  exists key d pad,
    bytes_fromhex demo_key = Some key /\ length key = 32%nat
    /\ d = concat (cbc_decrypt_blocks toy_block key
                     (take 16 demo_blob) (blocks (drop 16 demo_blob)))
    /\ length d = (length demo_blob - 16)%nat
    /\ last d = Some pad
    /\ demo_decrypt "scan.enc" "scan.png" (demo_start true)
       = (Return true,
          emit (LogLine "INFO"
                  ("Decrypted: " +:+ "scan.enc" +:+ " -> " +:+ "scan.png"))
               (set_files
                  (<["scan.png" := py_slice_to d (- byte_val pad)]>
                     (files (demo_start true))) (demo_start true)))
    /\ ((length d < Byte.to_nat pad)%nat ->
        py_slice_to d (- byte_val pad) = []).
Proof.
  apply (decrypt_file_accepts_any_key (Some demo_key) toy_block
           toy_block_length (demo_start true) "scan.enc" "scan.png"
           demo_key demo_blob).
  - reflexivity.
  - reflexivity.
  - reflexivity.
  - vm_compute. reflexivity.
  - vm_compute. discriminate.
  - reflexivity.
  - reflexivity.
Defined.

(** [demo_blob] is the encryption of [demo_plain], which comes back. *)
Lemma decrypt_file_round_trip_witness :
  exists w',
    demo_decrypt "scan.enc" "scan.png" (demo_start true) = (Return true, w')
    /\ files w' !! "scan.png" = Some demo_plain.
Proof.
  apply (decrypt_file_round_trip (Some demo_key) toy_block toy_block
           toy_block_length
           (fun key b _ => toy_block_involutive key b)
           (demo_start true) "scan.enc" "scan.png" demo_key
           demo_key_bytes demo_iv demo_plain).
  - reflexivity.
  - vm_compute. reflexivity.
  - reflexivity.
  - reflexivity.
  - vm_compute. reflexivity.
  - reflexivity.
Defined.

(** The analysis of the decrypted scan returns the box at 0.95 alone. *)
Lemma analyze_mammogram_confident_separated_witness :
  (forall r, In r [demo_detection] -> (8 # 10 <= confidence r)%Q)
  /\ (forall a b,
        In a [demo_detection] -> In b [demo_detection] ->
        (confidence b < confidence a)%Q ->
        ~ (3 # 10 < demo_iou (bbox a) (bbox b))%Q).
Proof.
  apply (analyze_mammogram_confident_separated
           demo_dcmread demo_imread demo_nonfinite unit demo_caffe_Net
           demo_im_detect demo_iou demo_float32
           "scan.png" false "deploy.prototxt" "lesion.caffemodel"
           demo_decrypted
           (demo_analyze "scan.png" false "deploy.prototxt"
                         "lesion.caffemodel" demo_decrypted).2
           [demo_detection]).
  vm_compute. reflexivity.
Defined.

(** The same analysis, for the order of its result. *)
Lemma analyze_mammogram_sorted_witness :
  StronglySorted (fun a b => (confidence b <= confidence a)%Q)
                 [demo_detection]
  /\ exists img net scores boxes dets,
      demo_im_detect net img = Some (scores, boxes)
      /\ class_dets demo_float32 scores boxes = Some dets
      /\ [demo_detection]
         = map to_detection
             (List.filter (fun c => Qle_bool (8 # 10) (cand_score c))
                          (nms_kept demo_iou dets (3 # 10))).
Proof.
  apply (analyze_mammogram_sorted
           demo_dcmread demo_imread demo_nonfinite unit demo_caffe_Net
           demo_im_detect demo_iou demo_float32
           "scan.png" false "deploy.prototxt" "lesion.caffemodel"
           demo_decrypted
           (demo_analyze "scan.png" false "deploy.prototxt"
                         "lesion.caffemodel" demo_decrypted).2
           [demo_detection]).
  vm_compute. reflexivity.
Defined.

(** The suppression at work on the three candidates: the box at 0.90 is
    dropped for its overlap with the box at 0.95, the box at 0.79 is kept
    by the suppression and dropped by the confidence threshold. *)
Example demo_kept_indices :
  (class_dets demo_float32 demo_scores demo_boxes
     ≫= fun dets => nms demo_iou dets NMS_THRESH) = Some [0; 2]%nat.
Proof. vm_compute. reflexivity. Qed.

Example demo_selected :
  select_detections demo_iou demo_float32 demo_scores demo_boxes
  = Some [demo_detection].
Proof. vm_compute. reflexivity. Qed.

(** A single box at 0.79: the run succeeds with no detection. *)
Example low_confidence_run :
  let run := main (Some demo_key) toy_block demo_dcmread demo_imread
                  demo_nonfinite demo_caffe_Net low_im_detect demo_iou
                  demo_float32 demo_args (demo_start true) in
  json_lines (stdout run.2)
    = [SuccessReport [] "scan.enc" "2024-05-01T10:00:00"]
  /\ exit_status run.1 = 0.
Proof. vm_compute. split; reflexivity. Qed.

(** The preprocessing of the decrypted scan, read as a raster. *)
Lemma preprocess_image_normalized_witness :
  exists src,
    source_pixels demo_dcmread demo_imread demo_decrypted "scan.png" false
      = Some src
    /\ dim0 demo_image = shape0 src /\ dim1 demo_image = shape1 src
    /\ dim2 demo_image = 3%nat
    /\ (forall i j, item3 demo_image i j 0 = item3 demo_image i j 1
                    /\ item3 demo_image i j 1 = item3 demo_image i j 2)
    /\ (forall i j k, 0 <= item3 demo_image i j k <= 255).
Proof.
  apply (preprocess_image_normalized demo_dcmread demo_imread demo_nonfinite
           "scan.png" false demo_decrypted demo_decrypted demo_image).
  vm_compute. reflexivity.
Defined.

(** The pixels 10, 30, 50, 70 become 36, 109, 182, 255. *)
Example demo_image_pixels :
  map (fun '(i, j) => item3 demo_image i j 0)
      [(0, 0); (0, 1); (1, 0); (1, 1)]%nat
  = [36; 109; 182; 255].
Proof. vm_compute. reflexivity. Qed.

(** The preprocessing of a 2 x 2 image of zeros. *)
Lemma preprocess_image_zero_divisor_witness :
  np_max zero_pixels = Some 0
  /\ np_true_divide (255 * inject_Z 0)%Q 0 = NaN
  /\ exists img,
      shape0 img = shape0 zero_pixels /\ shape1 img = shape1 zero_pixels
      /\ (forall i j, (i < shape0 zero_pixels)%nat ->
                      (j < shape1 zero_pixels)%nat -> item img i j = 0)
      /\ rescale img demo_decrypted
         = (Return (rescale_by 0 img), demo_decrypted)
      /\ preprocess_image demo_dcmread zero_imread demo_nonfinite
                          "scan.png" false demo_decrypted
         = (Return (three_channels demo_nonfinite (rescale_by 0 img)),
            demo_decrypted)
      /\ (forall i j, (i < shape0 zero_pixels)%nat ->
                      (j < shape1 zero_pixels)%nat ->
                      item (rescale_by 0 img) i j
                      = np_true_divide (255 * inject_Z 0)%Q 0).
Proof.
  apply (preprocess_image_zero_divisor demo_dcmread zero_imread
           demo_nonfinite "scan.png" false demo_decrypted demo_plain
           zero_pixels).
  - vm_compute. reflexivity.
  - reflexivity.
  - simpl. lia.
  - intros i j _ _. reflexivity.
Defined.

(** A run in which the plaintext file can be removed. *)
Lemma main_prints_one_report_witness :
  exists b w1,
    demo_decrypt (input demo_args) (output demo_args) (demo_start true)
      = (Return b, w1)
    /\ if b then
         exists rep,
           json_lines (stdout (demo_main demo_args (demo_start true)).2)
             = json_lines (stdout (demo_start true)) ++ [rep]
           /\ match demo_analyze (output demo_args) (is_dicom demo_args)
                                 (prototxt demo_args) (model demo_args) w1
              with
              | (Return results, _) =>
                  rep = SuccessReport results (input demo_args)
                                      (now (demo_start true))
                  /\ exit_status (demo_main demo_args (demo_start true)).1 = 0
              | (Raise (Exception msg), _) =>
                  rep = ErrorReport msg (input demo_args)
                                    (now (demo_start true))
                  /\ exit_status (demo_main demo_args (demo_start true)).1 = 1
              | (Raise (SystemExit _), _) => False
              end
       else
         json_lines (stdout (demo_main demo_args (demo_start true)).2)
           = json_lines (stdout (demo_start true))
         /\ exit_status (demo_main demo_args (demo_start true)).1 = 1.
Proof.
  apply (main_prints_one_report (Some demo_key) toy_block demo_dcmread
           demo_imread demo_nonfinite unit demo_caffe_Net demo_im_detect
           demo_iou demo_float32 demo_args (demo_start true)).
  reflexivity.
Defined.

(** Without the key nothing is printed as JSON: not exactly one
    document. *)
Lemma main_missing_key_prints_nothing :
  let run := main None toy_block demo_dcmread demo_imread demo_nonfinite
                  demo_caffe_Net demo_im_detect demo_iou demo_float32
                  demo_args (demo_start true) in
  json_lines (stdout run.2) = []
  /\ exit_status run.1 = 1
  /\ ~ (exists rep, json_lines (stdout run.2) = [rep]).
Proof.
  vm_compute. split; [reflexivity|]. split; [reflexivity|].
  intros [rep H]. discriminate H.
Qed.

(** A run without the key. *)
Lemma main_decrypt_failure_witness :
  let run := main None toy_block demo_dcmread demo_imread demo_nonfinite
                  demo_caffe_Net demo_im_detect demo_iou demo_float32
                  demo_args (demo_start true) in
  (exit_status run.1 = 1
   /\ exit_status run.1 <> 0
   /\ json_lines (stdout run.2) = json_lines (stdout (demo_start true)))
  /\ ((decrypt_file None toy_block (input demo_args) (output demo_args)
                    (demo_start true)).1 = Return false
      /\ files run.2 = files (demo_start true)).
Proof.
  pose proof (main_decrypt_failure None toy_block demo_dcmread demo_imread
                demo_nonfinite unit demo_caffe_Net demo_im_detect demo_iou
                demo_float32 demo_args (demo_start true)) as [Hfail Hkey].
  split.
  - apply (Hfail (decrypt_file None toy_block (input demo_args)
                               (output demo_args) (demo_start true)).2).
    reflexivity.
  - apply Hkey. reflexivity.
Defined.

(** C3 at a run whose plaintext file cannot be removed: the analysis
    succeeds and the success record is printed, the removal is refused,
    the error record follows, and the plaintext file is still there when
    the process exits with status 1. *)
Theorem main_success_then_removal_refused :
  let run := demo_main demo_args (demo_start false) in
  json_lines (stdout run.2)
    = [SuccessReport [demo_detection] "scan.enc" "2024-05-01T10:00:00";
       ErrorReport "Permission denied: scan.png" "scan.enc"
                   "2024-05-01T10:00:00"]
  /\ files run.2 !! "scan.png" = Some demo_plain
  /\ exit_status run.1 = 1.
Proof. vm_compute. repeat split. Qed.

(** The same run with the removal allowed. *)
Example main_success_run :
  let run := demo_main demo_args (demo_start true) in
  json_lines (stdout run.2)
    = [SuccessReport [demo_detection] "scan.enc" "2024-05-01T10:00:00"]
  /\ files run.2 !! "scan.png" = None
  /\ exit_status run.1 = 0.
Proof. vm_compute. repeat split. Qed.

(** An invalid model path: the error record is printed, the process exits
    with status 1 and the plaintext file stays. *)
Example main_invalid_model :
  let args := {| input := "scan.enc"; output := "scan.png";
                 prototxt := "deploy.prototxt"; model := "missing.caffemodel";
                 is_dicom := false |} in
  let run := demo_main args (demo_start true) in
  json_lines (stdout run.2)
    = [ErrorReport "Could not open or parse the network files" "scan.enc"
                   "2024-05-01T10:00:00"]
  /\ files run.2 !! "scan.png" = Some demo_plain
  /\ exit_status run.1 = 1.
Proof. vm_compute. repeat split. Qed.

(** The DICOM path on an inverted-monochrome dataset: the pixels 10, 30,
    50, 70 are inverted to 60, 40, 20, 0 and rescaled to 255, 170, 85,
    0. *)
Example demo_dicom_pixels :
  match preprocess_image demo_dcmread demo_imread demo_nonfinite
                         "scan.png" true demo_decrypted with
  | (Return im, _) =>
      map (fun '(i, j) => item3 im i j 0) [(0, 0); (0, 1); (1, 0); (1, 1)]%nat
      = [255; 170; 85; 0]
  | _ => False
  end.
Proof. vm_compute. reflexivity. Qed.

(** * Part III: further properties of the script *)

(** ** The decryptor's verdict *)

Lemma AES_new_some key iv c :
  AES_new key iv = Some c ->
  aes_key_length (length key) /\ is_block iv
  /\ c = {| cipher_key := key; cipher_iv := iv |}.
Proof.
  unfold AES_new, aes_key_length, is_block.
  destruct (length key =? 16)%nat eqn:H16;
    destruct (length key =? 24)%nat eqn:H24;
    destruct (length key =? 32)%nat eqn:H32;
    destruct (length iv =? AES_block)%nat eqn:Hiv; simpl; try done;
    intros [= <-]; apply Nat.eqb_eq in Hiv;
    try apply Nat.eqb_eq in H16; try apply Nat.eqb_eq in H24;
    try apply Nat.eqb_eq in H32; auto.
Qed.

Lemma AES_new_intro key iv :
  aes_key_length (length key) -> is_block iv ->
  AES_new key iv = Some {| cipher_key := key; cipher_iv := iv |}.
Proof.
  unfold AES_new, aes_key_length, is_block.
  intros [Hk | [Hk | Hk]] Hiv; rewrite Hk, Hiv; reflexivity.
Qed.

Lemma cipher_decrypt_some (D : bytes -> bytes -> bytes) c data d :
  cipher_decrypt D c data = Some d ->
  (length data mod AES_block = 0)%nat
  /\ d = concat (cbc_decrypt_blocks D (cipher_key c) (cipher_iv c)
                                    (blocks data)).
Proof.
  unfold cipher_decrypt.
  destruct (length data mod AES_block =? 0)%nat eqn:Hm; [|done].
  intros [= <-]. by apply Nat.eqb_eq in Hm.
Qed.

Lemma strip_padding_some d out :
  strip_padding d = Some out ->
  exists pad, last d = Some pad /\ out = py_slice_to d (- byte_val pad).
Proof.
  unfold strip_padding. rewrite py_getitem_last.
  destruct (last d) as [pad|]; [|done]. simpl. intros [= <-]. eauto.
Qed.

Lemma strip_padding_nonempty (d : bytes) :
  d <> [] -> is_Some (strip_padding d).
Proof.
  intros Hd. destruct (last d) as [pad|] eqn:Hl.
  - rewrite (strip_padding_last _ _ Hl). eauto.
  - apply last_None in Hl. contradiction.
Qed.

(** Whatever the last byte, at least one byte goes. *)
Lemma py_slice_to_pad_shorter (d : bytes) (pad : byte) :
  d <> [] ->
  exists k, py_slice_to d (- byte_val pad) = take k d /\ (k < length d)%nat.
Proof.
  intros Hd. assert (0 < length d)%nat by (destruct d; simpl; [done|lia]).
  unfold byte_val. destruct (Byte.to_nat pad) as [|n] eqn:Hp.
  - exists 0%nat. split; [|done]. rewrite py_slice_to_zero. by rewrite take_0.
  - exists (length d - S n)%nat. split; [|lia].
    apply py_slice_to_neg. lia.
Qed.

Lemma whole_length_after_iv (n : nat) :
  (16 <= n)%nat ->
  ((n - 16) mod AES_block = 0)%nat <-> (n mod AES_block = 0)%nat.
Proof.
  intros Hn. unfold AES_block.
  replace n with ((n - 16) + 1 * 16)%nat at 2 by lia.
  by rewrite Nat.Div0.mod_add.
Qed.

Section DecryptorVerdict.

Variable ENCRYPTION_KEY : option string.
Variable aes_decrypt_block : bytes -> bytes -> bytes.

Local Abbreviation decrypt :=
  (decrypt_file ENCRYPTION_KEY aes_decrypt_block).

Lemma decrypt_bytes_some data out :
  decrypt_bytes ENCRYPTION_KEY aes_decrypt_block data = Some out ->
  exists key d pad,
    bytes_fromhex (default "" ENCRYPTION_KEY) = Some key
    /\ aes_key_length (length key)
    /\ (16 < length data)%nat
    /\ (length data mod 16 = 0)%nat
    /\ d = concat (cbc_decrypt_blocks aes_decrypt_block key (take 16 data)
                                      (blocks (drop 16 data)))
    /\ last d = Some pad
    /\ out = py_slice_to d (- byte_val pad).
Proof.
  unfold decrypt_bytes, IV_LENGTH.
  rewrite py_slice_to_nonneg, py_slice_from_nonneg by lia.
  change (Z.to_nat 16) with 16%nat.
  destruct (bytes_fromhex _) as [key|]; [|done]. cbn [mbind option_bind].
  destruct (AES_new key (take 16 data)) as [c|] eqn:Hc; [|done].
  cbn [mbind option_bind].
  apply AES_new_some in Hc as (Hk & Hiv & ->).
  destruct (cipher_decrypt _ _ _) as [d|] eqn:Hd; [|done].
  cbn [mbind option_bind].
  apply cipher_decrypt_some in Hd as [Hmod Hd]. cbn in Hd.
  intros Hs. apply strip_padding_some in Hs as (pad & Hlast & ->).
  unfold is_block, AES_block in Hiv. rewrite length_take in Hiv.
  assert (Hlen : (16 < length data)%nat).
  { destruct (decide (16 < length data)%nat) as [|Hn]; [done|].
    rewrite drop_ge in Hd by lia. simp blocks in Hd. simpl in Hd.
    subst d. discriminate. }
  rewrite length_drop in Hmod.
  apply (whole_length_after_iv (length data)) in Hmod; [|lia].
  exists key, d, pad. repeat split; done.
Qed.


(** What a run that returned [True] went through. *)
Lemma decrypt_file_true_inv (w : World) (inp outp : string) :
  (decrypt inp outp w).1 = Return true ->
  exists data key d pad,
    key_unset ENCRYPTION_KEY = false
    /\ files w !! inp = Some data
    /\ bytes_fromhex (default "" ENCRYPTION_KEY) = Some key
    /\ aes_key_length (length key)
    /\ (16 < length data)%nat
    /\ (length data mod 16 = 0)%nat
    /\ d = concat (cbc_decrypt_blocks aes_decrypt_block key (take 16 data)
                                      (blocks (drop 16 data)))
    /\ last d = Some pad
    /\ may_write w outp = true
    /\ files (decrypt inp outp w).2 !! outp
       = Some (py_slice_to d (- byte_val pad)).
Proof.
  destruct (decrypt_file_cases ENCRYPTION_KEY aes_decrypt_block w inp outp)
    as [(msg & ->)|(data & out & Hk & Hf & Hd & Hw & ->)]; [done|].
  intros _. apply decrypt_bytes_some in Hd
    as (key & d & pad & Hkey & Hkl & Hlen & Hmod & Hd & Hlast & ->).
  exists data, key, d, pad. repeat split; try done.
  simpl. apply lookup_insert_eq.
Qed.

Hypothesis aes_decrypt_block_length :
  forall key c, is_block c -> is_block (aes_decrypt_block key c).

Lemma cbc_plaintext_length key (data : bytes) :
  (16 < length data)%nat -> (length data mod 16 = 0)%nat ->
  exists d,
    cipher_decrypt aes_decrypt_block
      {| cipher_key := key; cipher_iv := take 16 data |} (drop 16 data)
      = Some d
    /\ d = concat (cbc_decrypt_blocks aes_decrypt_block key (take 16 data)
                                      (blocks (drop 16 data)))
    /\ length d = (length data - 16)%nat.
Proof.
  intros Hlen Hmod.
  assert (Hiv : is_block (take 16 data)).
  { unfold is_block, AES_block. rewrite length_take. lia. }
  destruct (cipher_decrypt_whole aes_decrypt_block aes_decrypt_block_length
              {| cipher_key := key; cipher_iv := take 16 data |}
              (drop 16 data) Hiv) as (d & Hd & Hdlen).
  { rewrite length_drop. apply whole_length_after_iv; [lia|done]. }
  exists d. split; [done|]. rewrite length_drop in Hdlen. split; [|done].
  by apply cipher_decrypt_some in Hd as [_ Hd].
Qed.

(** X1: [decrypt_file] returns [True] exactly when the key is set to a
    hexadecimal string of 16, 24 or 32 bytes, the input file can be read
    and holds the IV followed by a nonempty whole number of 16-byte
    blocks, and the output path can be written.  Keys of 16 and 24 bytes
    pass as well as keys of 32. *)
Theorem decrypt_file_true_iff (w : World) (inp outp : string) :
  (decrypt inp outp w).1 = Return true
  <-> decryptable ENCRYPTION_KEY w inp outp.
Proof.
  split.
  - intros H. apply decrypt_file_true_inv in H
      as (data & key & d & pad & Hk & Hf & Hkey & Hkl & Hlen & Hmod & _
          & _ & Hw & _).
    unfold decryptable.
    destruct ENCRYPTION_KEY as [ks|] eqn:HK; [|done].
    exists ks, data, key. split; [done|]. split.
    { intros ->. simpl in Hk. done. }
    simpl in Hkey. repeat split; done.
  - intros (ks & data & key & HK & Hks & Hf & Hkey & Hkl & Hlen & Hmod & Hw).
    destruct (cbc_plaintext_length key data Hlen Hmod)
      as (d & Hd & _ & Hdlen).
    destruct (strip_padding_nonempty d) as [out Hout].
    { intros ->. simpl in Hdlen. lia. }
    rewrite (decrypt_file_success ENCRYPTION_KEY aes_decrypt_block
               w inp outp data out); try done.
    + rewrite HK. unfold key_unset. by destruct (decide (ks = "")).
    + unfold decrypt_bytes, IV_LENGTH.
      rewrite py_slice_to_nonneg, py_slice_from_nonneg by lia.
      change (Z.to_nat 16) with 16%nat. rewrite HK. simpl. rewrite Hkey.
      cbn [mbind option_bind].
      rewrite (AES_new_intro key (take 16 data)); [|done|].
      2:{ unfold is_block, AES_block. rewrite length_take. lia. }
      cbn [mbind option_bind]. rewrite Hd. exact Hout.
Qed.

(** X3: when [decrypt_file] returns [True] the output file is a proper
    prefix of the CBC plaintext and at least 17 bytes shorter than the
    input file: the 16 bytes of the IV and at least one stripped byte,
    whatever the last plaintext byte is. *)
Theorem decrypt_file_output_shorter (w : World) (inp outp : string) :
  (decrypt inp outp w).1 = Return true ->
  exists data out k,
    files w !! inp = Some data
    /\ files (decrypt inp outp w).2 !! outp = Some out
    /\ out = take k
               (concat (cbc_decrypt_blocks aes_decrypt_block
                          (default []
                             (bytes_fromhex (default "" ENCRYPTION_KEY)))
                          (take 16 data) (blocks (drop 16 data))))
    /\ (length out + 17 <= length data)%nat.
Proof.
  intros H. apply decrypt_file_true_inv in H
    as (data & key & d & pad & _ & Hf & Hkey & _ & Hlen & Hmod & Hd
        & Hlast & _ & Hout).
  destruct (cbc_plaintext_length key data Hlen Hmod) as (d' & _ & Hd' & Hdlen).
  rewrite <- Hd in Hd'. subst d'.
  destruct (py_slice_to_pad_shorter d pad) as (k & Hk & Hlt).
  { intros ->. discriminate. }
  exists data, (take k d), k. rewrite Hkey. cbn [default from_option id].
  rewrite <- Hd. split; [done|]. split; [by rewrite Hout, Hk|].
  split; [done|]. rewrite length_take. lia.
Qed.

End DecryptorVerdict.

(** ** The maximum of an array *)

Lemma In_np_elements {A} (a : ndarray A) i j :
  (i < shape0 a)%nat -> (j < shape1 a)%nat -> In (item a i j) (np_elements a).
Proof.
  intros Hi Hj. unfold np_elements, np_row. apply in_flat_map.
  exists i. split; [apply in_seq; lia|].
  apply in_map. apply in_seq. lia.
Qed.

Lemma fold_max_spec (xs : list Z) (x : Z) :
  In (fold_left Z.max xs x) (x :: xs)
  /\ List.Forall (fun y => y <= fold_left Z.max xs x) (x :: xs).
Proof.
  revert x. induction xs as [|y xs IH]; intros x.
  - simpl. split; [by left|]. constructor; [lia|constructor].
  - cbn [fold_left]. destruct (IH (Z.max x y)) as [Hin Hall].
    inversion Hall as [|? ? Hm Hxs]; subst. split.
    + destruct Hin as [Hin|Hin]; [|by right; right].
      rewrite <- Hin.
      destruct (Z.max_spec x y) as [[_ ->]|[_ ->]]; [right; by left|by left].
    + constructor; [lia|]. constructor; [lia|done].
Qed.

(** [a.max()] is an element of the array and bounds every element. *)
Lemma np_max_spec (a : ndarray Z) (m : Z) :
  np_max a = Some m <->
  (exists i j, (i < shape0 a)%nat /\ (j < shape1 a)%nat /\ item a i j = m)
  /\ (forall i j, (i < shape0 a)%nat -> (j < shape1 a)%nat -> item a i j <= m).
Proof.
  assert (Hsome : forall m', np_max a = Some m' ->
    (exists i j, (i < shape0 a)%nat /\ (j < shape1 a)%nat /\ item a i j = m')
    /\ (forall i j, (i < shape0 a)%nat -> (j < shape1 a)%nat ->
                    item a i j <= m')).
  { intros m'. unfold np_max.
    pose proof (@In_np_elements _ a) as Hall.
    pose proof (np_elements_In a) as Hin.
    destruct (np_elements a) as [|x xs]; [done|]. intros [= <-].
    destruct (fold_max_spec xs x) as [Hm Hle]. split.
    - apply Hin in Hm as (i & j & Hi & Hj & Hm). by exists i, j.
    - intros i j Hi Hj.
      exact (proj1 (List.Forall_forall _ _) Hle _ (Hall i j Hi Hj)). }
  split; [apply Hsome|].
  intros [(i & j & Hi & Hj & Hm) Hle].
  destruct (np_max a) as [m'|] eqn:Hmax.
  - destruct (Hsome m' eq_refl) as [(i' & j' & Hi' & Hj' & Hm') Hle'].
    f_equal. pose proof (Hle i' j' Hi' Hj'). pose proof (Hle' i j Hi Hj). lia.
  - exfalso. unfold np_max in Hmax.
    pose proof (In_np_elements a i j Hi Hj) as Hin.
    destruct (np_elements a); [done|discriminate].
Qed.

Lemma np_max_is_Some (a : ndarray Z) :
  is_Some (np_max a) <-> (0 < shape0 a * shape1 a)%nat.
Proof.
  unfold np_max. pose proof (np_elements_length a) as Hlen.
  destruct (np_elements a); simpl in Hlen; split.
  - intros [? [=]].
  - lia.
  - lia.
  - eauto.
Qed.

Lemma Qtrunc_scaled (v m : Z) :
  0 < m -> Qtrunc (255 * inject_Z v / inject_Z m) = Z.quot (255 * v) m.
Proof.
  intros Hm. destruct m as [|p|p]; [lia| |lia].
  unfold Qtrunc, Qdiv, Qmult, Qinv, inject_Z. cbn [Qnum Qden].
  f_equal; lia.
Qed.

(** ** The values of the normalized image *)

Section ImagingValues.

Variable dcmread : bytes -> option Dataset.
Variable imread_grayscale : bytes -> option (ndarray Z).
Variable uint8_of_nonfinite : float -> Z.

Local Abbreviation preprocess :=
  (preprocess_image dcmread imread_grayscale uint8_of_nonfinite).
Local Abbreviation uint8 := (to_uint8 uint8_of_nonfinite).
Local Abbreviation channels := (three_channels uint8_of_nonfinite).

Lemma rescale_run img m w :
  np_max img = Some m -> rescale img w = (Return (rescale_by m img), w).
Proof. intros H. unfold rescale. py_unfold. by rewrite H. Qed.

(** The three ways through a preprocessing that returns. *)
Lemma preprocess_image_raster path w data src m :
  files w !! path = Some data ->
  imread_grayscale data = Some src ->
  np_max src = Some m ->
  preprocess path false w = (Return (channels (rescale_by m src)), w).
Proof.
  intros Hf Hsrc Hm. unfold preprocess_image. py_unfold.
  rewrite Hf. simpl. rewrite Hsrc. simpl. by rewrite (rescale_run _ _ _ Hm).
Qed.

Lemma preprocess_image_dicom path w data ds pi m :
  files w !! path = Some data ->
  dcmread data = Some ds ->
  PhotometricInterpretation ds = Some pi ->
  pi <> "MONOCHROME1" ->
  np_max (pixel_array ds) = Some m ->
  preprocess path true w
  = (Return (channels (rescale_by m (pixel_array ds))), w).
Proof.
  intros Hf Hds Hpi Hne Hm. unfold preprocess_image. py_run.
  rewrite Hf. simpl. rewrite Hds. simpl. rewrite Hpi. simpl.
  destruct (decide (pi = "MONOCHROME1")); [done|].
  by rewrite (rescale_run _ _ _ Hm).
Qed.

Lemma preprocess_image_inverted path w data ds m m' :
  files w !! path = Some data ->
  dcmread data = Some ds ->
  PhotometricInterpretation ds = Some "MONOCHROME1" ->
  np_max (pixel_array ds) = Some m ->
  np_max (np_map (fun v => wrap (pixel_dtype ds) (m - v)) (pixel_array ds))
    = Some m' ->
  preprocess path true w
  = (Return
       (channels
          (rescale_by m'
             (np_map (fun v => wrap (pixel_dtype ds) (m - v))
                     (pixel_array ds)))), w).
Proof.
  intros Hf Hds Hpi Hm Hm'. unfold preprocess_image. py_run.
  rewrite Hf. simpl. rewrite Hds. simpl. rewrite Hpi. simpl.
  rewrite Hm. simpl. by rewrite (rescale_run _ _ _ Hm').
Qed.

Lemma preprocess_image_cases path dicom w :
  (decodable dcmread imread_grayscale w path dicom
   /\ exists im, preprocess path dicom w = (Return im, w))
  \/ (~ decodable dcmread imread_grayscale w path dicom
      /\ exists msg, preprocess path dicom w = preprocess_failure path msg w).
Proof.
  unfold decodable, preprocess_failure.
  destruct (files w !! path) as [data|] eqn:Hf.
  2:{ right. split; [by intros (? & [=] & _)|].
      unfold preprocess_image. destruct dicom; py_run; rewrite Hf;
        eexists; reflexivity. }
  destruct dicom.
  - destruct (dcmread data) as [ds|] eqn:Hds.
    2:{ right. split; [by intros (? & [= <-] & ? & ? & _); congruence|].
        unfold preprocess_image. py_run. rewrite Hf. simpl. rewrite Hds.
        eexists; reflexivity. }
    destruct (PhotometricInterpretation ds) as [pi|] eqn:Hpi.
    2:{ right. split.
        - intros (? & [= <-] & ds' & Hds' & [? Hpi'] & _). congruence.
        - unfold preprocess_image. py_run. rewrite Hf. simpl. rewrite Hds.
          simpl. rewrite Hpi. eexists; reflexivity. }
    destruct (np_max (pixel_array ds)) as [m|] eqn:Hm.
    + left. split.
      * exists data. split; [done|]. exists ds. split; [done|].
        split; [eauto|]. apply np_max_is_Some. eauto.
      * destruct (decide (pi = "MONOCHROME1")) as [->|Hne].
        -- destruct (proj2 (np_max_is_Some
                      (np_map (fun v => wrap (pixel_dtype ds) (m - v))
                              (pixel_array ds)))) as [m' Hm'].
           { cbn [np_map shape0 shape1]. apply np_max_is_Some. eauto. }
           eexists. by apply (preprocess_image_inverted _ _ data ds m m').
        -- eexists. by apply (preprocess_image_dicom _ _ data ds pi m).
    + right. split.
      * intros (? & [= <-] & ds' & Hds' & _ & Hsize).
        assert (ds' = ds) as -> by congruence.
        apply np_max_is_Some in Hsize as [? Hsize]. congruence.
      * unfold preprocess_image. py_run. rewrite Hf. simpl. rewrite Hds.
        simpl. rewrite Hpi. simpl.
        destruct (decide (pi = "MONOCHROME1")).
        -- rewrite Hm. eexists; reflexivity.
        -- unfold rescale. py_unfold. rewrite Hm. eexists; reflexivity.
  - destruct (imread_grayscale data) as [src|] eqn:Hsrc.
    2:{ right. split; [by intros (? & [= <-] & ? & ? & _); congruence|].
        unfold preprocess_image. py_run. rewrite Hf. simpl. rewrite Hsrc.
        eexists; reflexivity. }
    destruct (np_max src) as [m|] eqn:Hm.
    + left. split.
      * exists data. split; [done|]. exists src. split; [done|].
        apply np_max_is_Some. eauto.
      * eexists. by apply (preprocess_image_raster _ _ data src m).
    + right. split.
      * intros (? & [= <-] & src' & Hsrc' & Hsize).
        assert (src' = src) as -> by congruence.
        apply np_max_is_Some in Hsize as [? Hsize]. congruence.
      * unfold preprocess_image. py_run. rewrite Hf. simpl. rewrite Hsrc.
        simpl. unfold rescale. py_unfold. rewrite Hm. eexists; reflexivity.
Qed.

(** X4: [preprocess_image] returns exactly when the file can be read and
    decoded, a DICOM data set carries PhotometricInterpretation, and the
    pixel array has an element; a returning call leaves the world as it
    was, logs included.  Otherwise it raises after logging one ERROR
    line that carries the message it raises. *)
Theorem preprocess_image_outcome (path : string) (dicom : bool) (w : World) :
  (decodable dcmread imread_grayscale w path dicom
   <-> exists im, preprocess path dicom w = (Return im, w))
  /\ (~ decodable dcmread imread_grayscale w path dicom
      <-> exists msg,
            preprocess path dicom w
            = (Raise (Exception msg),
               emit (LogLine "ERROR"
                       ("Preprocessing failed for " +:+ path +:+ ": "
                        +:+ msg)) w)).
Proof.
  destruct (preprocess_image_cases path dicom w)
    as [[Hd [im Him]]|[Hn [msg Hmsg]]].
  - split; split; try done.
    + intros _. by exists im.
    + intros [msg Hmsg]. rewrite Him in Hmsg. discriminate.
  - split; split; try done.
    + intros [im Him]. rewrite Hmsg in Him. discriminate.
    + intros _. by exists msg.
Qed.

Lemma uint8_scaled (v m : Z) :
  0 <= v <= m -> 0 < m ->
  uint8 (np_true_divide (255 * inject_Z v) m) = 255 * v / m.
Proof.
  intros Hv Hm. unfold np_true_divide.
  rewrite (proj2 (Z.eqb_neq m 0)) by lia.
  unfold to_uint8. rewrite Qtrunc_scaled by done.
  rewrite Z.quot_div_nonneg by lia.
  apply Z.mod_small. split; [apply Z.div_pos; lia|].
  apply Z.div_lt_upper_bound; nia.
Qed.

Lemma scaled_top (v m : Z) :
  0 <= v <= m -> 0 < m -> (255 * v / m = 255 <-> v = m).
Proof.
  intros Hv Hm. split.
  - intros H. destruct (decide (v = m)) as [|Hne]; [done|]. exfalso.
    assert (255 * v / m < 255) by (apply Z.div_lt_upper_bound; nia). lia.
  - intros ->. apply Z.div_mul. lia.
Qed.

(** X5: on the raster path, for an image without negative pixels whose
    maximum [m] is positive, every channel of the returned image holds
    [255 * v / m] rounded down at a pixel of value [v]; the pixels that
    become 255 are exactly those that hold the maximum. *)
Theorem preprocess_image_raster_scaling
    (path : string) (w : World) (data : bytes) (src : ndarray Z) (m : Z) :
  files w !! path = Some data ->
  imread_grayscale data = Some src ->
  np_max src = Some m ->
  0 < m ->
  (forall i j, (i < shape0 src)%nat -> (j < shape1 src)%nat ->
               0 <= item src i j) ->
  exists im,
    preprocess path false w = (Return im, w)
    /\ forall i j k,
        (i < shape0 src)%nat -> (j < shape1 src)%nat -> (k < 3)%nat ->
        item3 im i j k = 255 * item src i j / m
        /\ (item3 im i j k = 255 <-> item src i j = m).
Proof.
  intros Hf Hsrc Hmax Hm Hpos. eexists. split.
  { by apply (preprocess_image_raster _ _ data src m). }
  intros i j k Hi Hj Hk. rewrite three_channels_item.
  rewrite (proj2 (Nat.ltb_lt _ _) Hk). cbn [rescale_by np_map item].
  assert (Hv : 0 <= item src i j <= m).
  { split; [by apply Hpos|]. apply np_max_spec in Hmax as [_ Hle].
    by apply Hle. }
  rewrite uint8_scaled by done. split; [done|]. by apply scaled_top.
Qed.

(** X6: on the raster path an image without negative pixels whose
    maximum is 255 comes back unchanged in each of the three channels. *)
Theorem preprocess_image_full_range
    (path : string) (w : World) (data : bytes) (src : ndarray Z) :
  files w !! path = Some data ->
  imread_grayscale data = Some src ->
  np_max src = Some 255 ->
  (forall i j, (i < shape0 src)%nat -> (j < shape1 src)%nat ->
               0 <= item src i j) ->
  exists im,
    preprocess path false w = (Return im, w)
    /\ dim0 im = shape0 src /\ dim1 im = shape1 src
    /\ forall i j k,
        (i < shape0 src)%nat -> (j < shape1 src)%nat -> (k < 3)%nat ->
        item3 im i j k = item src i j.
Proof.
  intros Hf Hsrc Hmax Hpos. eexists. split.
  { by apply (preprocess_image_raster _ _ data src 255). }
  split; [reflexivity|]. split; [reflexivity|].
  intros i j k Hi Hj Hk. rewrite three_channels_item.
  rewrite (proj2 (Nat.ltb_lt _ _) Hk). cbn [rescale_by np_map item].
  assert (Hv : 0 <= item src i j <= 255).
  { split; [by apply Hpos|]. apply np_max_spec in Hmax as [_ Hle].
    by apply Hle. }
  rewrite uint8_scaled by lia. rewrite Z.mul_comm. apply Z.div_mul. lia.
Qed.

Lemma wrap_unsigned (t : Dtype) (x : Z) :
  dtype_signed t = false -> 0 <= x < 2 ^ dtype_bits t -> wrap t x = x.
Proof. intros Ht Hx. unfold wrap. rewrite Ht. by apply Z.mod_small. Qed.

(** X7: a MONOCHROME1 data set of an unsigned pixel type is inverted
    before it is rescaled: with [lo] the least and [hi] the greatest
    pixel value, a pixel of value [v] becomes [255 * (hi - v) / (hi - lo)]
    rounded down, so the brightest pixels become 0 and the darkest 255. *)
Theorem preprocess_image_monochrome1
    (path : string) (w : World) (data : bytes) (ds : Dataset) (lo hi : Z) :
  files w !! path = Some data ->
  dcmread data = Some ds ->
  PhotometricInterpretation ds = Some "MONOCHROME1" ->
  dtype_signed (pixel_dtype ds) = false ->
  np_max (pixel_array ds) = Some hi ->
  (exists i j, (i < shape0 (pixel_array ds))%nat
               /\ (j < shape1 (pixel_array ds))%nat
               /\ item (pixel_array ds) i j = lo) ->
  (forall i j, (i < shape0 (pixel_array ds))%nat ->
               (j < shape1 (pixel_array ds))%nat ->
               lo <= item (pixel_array ds) i j) ->
  0 <= lo < hi ->
  hi < 2 ^ dtype_bits (pixel_dtype ds) ->
  exists im,
    preprocess path true w = (Return im, w)
    /\ forall i j k,
        (i < shape0 (pixel_array ds))%nat ->
        (j < shape1 (pixel_array ds))%nat -> (k < 3)%nat ->
        item3 im i j k = 255 * (hi - item (pixel_array ds) i j) / (hi - lo)
        /\ (item (pixel_array ds) i j = hi -> item3 im i j k = 0)
        /\ (item (pixel_array ds) i j = lo -> item3 im i j k = 255).
Proof.
  intros Hf Hds Hpi Hsigned Hmax (i0 & j0 & Hi0 & Hj0 & Hlo) Hmin Hlohi Hhi.
  pose proof (proj1 (np_max_spec _ _) Hmax) as [_ Hle].
  assert (Hinv : forall i j,
             (i < shape0 (pixel_array ds))%nat ->
             (j < shape1 (pixel_array ds))%nat ->
             wrap (pixel_dtype ds) (hi - item (pixel_array ds) i j)
             = hi - item (pixel_array ds) i j).
  { intros i j Hi Hj. apply wrap_unsigned; [done|].
    pose proof (Hle i j Hi Hj). pose proof (Hmin i j Hi Hj). lia. }
  assert (Hmax' : np_max (np_map (fun v => wrap (pixel_dtype ds) (hi - v))
                                 (pixel_array ds)) = Some (hi - lo)).
  { apply np_max_spec. cbn [np_map shape0 shape1 item]. split.
    - exists i0, j0. split; [done|]. split; [done|].
      rewrite Hinv by done. lia.
    - intros i j Hi Hj. rewrite Hinv by done.
      pose proof (Hmin i j Hi Hj). lia. }
  eexists. split.
  { by apply (preprocess_image_inverted _ _ data ds hi (hi - lo)). }
  intros i j k Hi Hj Hk. rewrite three_channels_item.
  rewrite (proj2 (Nat.ltb_lt _ _) Hk). cbn [rescale_by np_map item].
  rewrite Hinv by done.
  pose proof (Hle i j Hi Hj). pose proof (Hmin i j Hi Hj).
  rewrite uint8_scaled by lia. split; [done|]. split.
  - intros ->. by rewrite Z.sub_diag.
  - intros ->. apply Z.div_mul. lia.
Qed.

(** X8: a MONOCHROME1 data set whose pixels all hold one value, whatever
    the value and the pixel type, is inverted to zeros: the divisor of
    the rescaling is 0, every quotient is NaN, and [preprocess_image]
    returns all the same. *)
Theorem preprocess_image_uniform_monochrome1
    (path : string) (w : World) (data : bytes) (ds : Dataset) (c : Z) :
  files w !! path = Some data ->
  dcmread data = Some ds ->
  PhotometricInterpretation ds = Some "MONOCHROME1" ->
  (0 < shape0 (pixel_array ds) * shape1 (pixel_array ds))%nat ->
  (forall i j, (i < shape0 (pixel_array ds))%nat ->
               (j < shape1 (pixel_array ds))%nat ->
               item (pixel_array ds) i j = c) ->
  exists img,
    preprocess path true w = (Return (channels img), w)
    /\ shape0 img = shape0 (pixel_array ds)
    /\ shape1 img = shape1 (pixel_array ds)
    /\ forall i j, (i < shape0 (pixel_array ds))%nat ->
                   (j < shape1 (pixel_array ds))%nat ->
                   item img i j = NaN.
Proof.
  intros Hf Hds Hpi Hsize Hconst.
  assert (Hmax : np_max (pixel_array ds) = Some c).
  { apply np_max_spec. split.
    - destruct (shape0 (pixel_array ds)) as [|n0] eqn:H0; [lia|].
      destruct (shape1 (pixel_array ds)) as [|n1] eqn:H1; [lia|].
      exists 0%nat, 0%nat. split; [lia|]. split; [lia|].
      apply Hconst; lia.
    - intros i j Hi Hj. rewrite Hconst by done. lia. }
  assert (Hzero : forall i j,
             (i < shape0 (pixel_array ds))%nat ->
             (j < shape1 (pixel_array ds))%nat ->
             wrap (pixel_dtype ds) (c - item (pixel_array ds) i j) = 0).
  { intros i j Hi Hj. rewrite Hconst by done. rewrite Z.sub_diag.
    by destruct (pixel_dtype ds). }
  assert (Hmax' : np_max (np_map (fun v => wrap (pixel_dtype ds) (c - v))
                                 (pixel_array ds)) = Some 0).
  { by apply np_max_zero. }
  eexists. split.
  { by apply (preprocess_image_inverted _ _ data ds c 0). }
  split; [reflexivity|]. split; [reflexivity|].
  intros i j Hi Hj. cbn [rescale_by np_map item]. by rewrite Hzero.
Qed.

End ImagingValues.

(** ** The rows handed to the filter *)

Lemma nth_map_seq {A} (f : nat -> A) (n i : nat) (d : A) :
  (i < n)%nat -> nth i (map f (seq 0 n)) d = f i.
Proof.
  intros Hi. rewrite (nth_indep _ d (f 0%nat))
    by (rewrite length_map, length_seq; lia).
  rewrite map_nth. by rewrite seq_nth by lia.
Qed.

Section FilterValues.

Variable iou : BBox -> BBox -> Q.
Variable float32 : Q -> Q.

(** What lines 97 to 100 need and what they build. *)
Lemma class_dets_some scores boxes dets :
  class_dets float32 scores boxes = Some dets ->
  (2 <= shape1 scores)%nat
  /\ shape0 boxes = shape0 scores
  /\ shape0 dets = shape0 scores
  /\ shape1 dets = S (Nat.min 8 (shape1 boxes) - 4)
  /\ forall i j,
      (i < shape0 scores)%nat ->
      item dets i j
      = float32 (if (j <? Nat.min 8 (shape1 boxes) - 4)%nat
                 then item boxes i (4 + j) else item scores i 1).
Proof.
  unfold class_dets, np_hstack_col, np_cols. cbv zeta. cbn [shape0 shape1].
  destruct (1 <? shape1 scores)%nat eqn:H1; [|done].
  cbn [mbind option_bind]. rewrite length_map, length_seq.
  destruct (shape0 boxes =? shape0 scores)%nat eqn:H0; [|done].
  cbn [mbind option_bind]. intros [= <-]. cbn [np_map shape0 shape1 item].
  apply Nat.ltb_lt in H1. apply Nat.eqb_eq in H0.
  split; [lia|]. split; [done|]. split; [done|].
  split; [reflexivity|]. intros i j Hi.
  rewrite nth_map_seq by done. reflexivity.
Qed.

(** X9: lines 97 to 100 raise exactly when the score matrix has no
    column for class 1 or the box matrix has another number of rows
    than the score matrix; too few box columns do not make them raise. *)
Theorem class_dets_raises_iff (scores boxes : ndarray Q) :
  class_dets float32 scores boxes = None
  <-> (shape1 scores < 2)%nat \/ shape0 boxes <> shape0 scores.
Proof.
  unfold class_dets, np_hstack_col, np_cols. cbv zeta. cbn [shape0 shape1].
  destruct (1 <? shape1 scores)%nat eqn:H1.
  - cbn [mbind option_bind]. rewrite length_map, length_seq.
    apply Nat.ltb_lt in H1.
    destruct (shape0 boxes =? shape0 scores)%nat eqn:H0.
    + apply Nat.eqb_eq in H0. cbn [mbind option_bind].
      split; [done|]. intros [?|?]; [lia|done].
    + apply Nat.eqb_neq in H0. cbn [mbind option_bind].
      split; [by right|done].
  - apply Nat.ltb_ge in H1. cbn [mbind option_bind].
    split; [|done]. intros _. left. lia.
Qed.

(** Every result is a row of the class 1 matrix. *)
Lemma select_detections_rows scores boxes results r :
  select_detections iou float32 scores boxes = Some results ->
  In r results ->
  exists i,
    (i < shape0 scores)%nat
    /\ (8 <= shape1 boxes)%nat
    /\ confidence r = float32 (item scores i 1)
    /\ bbox r = {| x_min := float32 (item boxes i 4);
                   y_min := float32 (item boxes i 5);
                   x_max := float32 (item boxes i 6);
                   y_max := float32 (item boxes i 7) |}.
Proof.
  intros Hsel Hr.
  pose proof (select_detections_kept _ _ _ _ _ Hsel) as (dets & Hd & ->).
  apply in_map_iff in Hr as (c & <- & Hc).
  apply List.filter_In in Hc as [Hc _].
  apply nms_kept_candidate in Hc as (i & Hi & ->).
  pose proof (class_dets_some _ _ _ Hd) as (_ & _ & H0 & H1 & Hitem).
  assert (H5 : (5 <= shape1 dets)%nat).
  { unfold select_detections in Hsel. rewrite Hd in Hsel.
    cbn [mbind option_bind] in Hsel.
    destruct (nms iou dets NMS_THRESH) as [keep|] eqn:Hk; [|done].
    apply nms_some in Hk as [[Hz _]|[H5 _]]; [lia|done]. }
  rewrite H0 in Hi. exists i. split; [done|]. split; [lia|].
  unfold to_detection, candidate_of. cbn [confidence bbox cand_box cand_score].
  rewrite !Hitem by done.
  replace (Nat.min 8 (shape1 boxes) - 4)%nat with 4%nat by lia.
  split; reflexivity.
Qed.

End FilterValues.

(** ** The traces of the analysis and of a run *)

Section PipelineTraces.

Variable ENCRYPTION_KEY : option string.
Variable aes_decrypt_block : bytes -> bytes -> bytes.
Variable dcmread : bytes -> option Dataset.
Variable imread_grayscale : bytes -> option (ndarray Z).
Variable uint8_of_nonfinite : float -> Z.
Variable Net : Type.
Variable caffe_Net : bytes -> bytes -> option Net.
Variable im_detect : Net -> ndarray3 -> option (ndarray Q * ndarray Q).
Variable iou : BBox -> BBox -> Q.
Variable float32 : Q -> Q.

Local Abbreviation preprocess :=
  (preprocess_image dcmread imread_grayscale uint8_of_nonfinite).
Local Abbreviation decrypt :=
  (decrypt_file ENCRYPTION_KEY aes_decrypt_block).
Local Abbreviation analyze :=
  (analyze_mammogram dcmread imread_grayscale uint8_of_nonfinite
                     caffe_Net im_detect iou float32).
Local Abbreviation run_main :=
  (main ENCRYPTION_KEY aes_decrypt_block dcmread imread_grayscale
        uint8_of_nonfinite caffe_Net im_detect iou float32).
Local Abbreviation readable := (decodable dcmread imread_grayscale).

Lemma load_net_cases p m w :
  match network_of caffe_Net w p m with
  | Some net =>
      load_net caffe_Net p m w
      = (Return net, emit (LogLine "INFO" ("Loaded model: " +:+ m)) w)
  | None =>
      exists msg,
        load_net caffe_Net p m w
        = (Raise (Exception msg),
           emit (LogLine "ERROR" ("Model loading failed: " +:+ msg)) w)
  end.
Proof.
  unfold load_net. py_run.
  change (option_bind _ _ _ (files w !! p))
    with (network_of caffe_Net w p m).
  destruct (network_of caffe_Net w p m) as [net|]; [reflexivity|].
  eexists. reflexivity.
Qed.

(** The ways an analysis can go, with the world each one leaves. *)
Lemma analyze_mammogram_cases path dicom p m w :
  (~ readable w path dicom
   /\ exists msg,
       analyze path dicom p m w
       = (Raise (Exception msg),
          logged (LogLine "ERROR"
                    ("Preprocessing failed for " +:+ path +:+ ": " +:+ msg))
                 (LogLine "ERROR" ("Analysis failed: " +:+ msg)) w))
  \/ (readable w path dicom
      /\ network_of caffe_Net w p m = None
      /\ exists msg,
          analyze path dicom p m w
          = (Raise (Exception msg),
             logged (LogLine "ERROR" ("Model loading failed: " +:+ msg))
                    (LogLine "ERROR" ("Analysis failed: " +:+ msg)) w))
  \/ (exists img net,
        preprocess path dicom w = (Return img, w)
        /\ network_of caffe_Net w p m = Some net
        /\ match im_detect net img
                 ≫= (fun sb => select_detections iou float32 sb.1 sb.2) with
           | Some results =>
               analyze path dicom p m w
               = (Return results,
                  logged (LogLine "INFO" ("Loaded model: " +:+ m))
                         (LogLine "INFO"
                            ("Detected " +:+ pretty (length results)
                             +:+ " lesions in " +:+ path)) w)
           | None =>
               exists msg,
                 analyze path dicom p m w
                 = (Raise (Exception msg),
                    logged (LogLine "INFO" ("Loaded model: " +:+ m))
                           (LogLine "ERROR" ("Analysis failed: " +:+ msg)) w)
           end).
Proof.
  destruct (preprocess_image_cases dcmread imread_grayscale
              uint8_of_nonfinite path dicom w)
    as [[Hd [img Him]]|[Hn [msg Hmsg]]].
  2:{ left. split; [done|]. exists msg.
      unfold analyze_mammogram. py_run. rewrite Hmsg. reflexivity. }
  right. pose proof (load_net_cases p m w) as Hnet.
  destruct (network_of caffe_Net w p m) as [net|] eqn:Hn.
  2:{ left. split; [done|]. split; [done|]. destruct Hnet as [msg Hmsg].
      exists msg. unfold analyze_mammogram. py_run. rewrite Him. cbv beta iota.
      rewrite Hmsg. reflexivity. }
  right. exists img, net. split; [done|]. split; [done|].
  unfold analyze_mammogram. py_run. rewrite Him. cbv beta iota.
  rewrite Hnet. cbv beta iota.
  destruct (im_detect net img) as [[scores boxes]|]; simpl.
  2:{ eexists; reflexivity. }
  destruct (select_detections iou float32 scores boxes) as [results|]; simpl.
  - reflexivity.
  - eexists; reflexivity.
Qed.

(** X10: every detection returned by [analyze_mammogram] is a row of
    the detector's output for class 1: its confidence is column 1 of the
    score matrix and its box is columns 4 to 7 of the box matrix, at one
    and the same row, as float32.  (The suppression, which picks the
    rows, is modelled from the spec.) *)
Theorem analyze_mammogram_results_from_class_one
    (path : string) (dicom : bool) (p m : string) (w w' : World)
    (results : list Detection) :
  analyze path dicom p m w = (Return results, w') ->
  exists img net scores boxes,
    im_detect net img = Some (scores, boxes)
    /\ forall r, In r results ->
         exists i,
           (i < shape0 scores)%nat
           /\ confidence r = float32 (item scores i 1)
           /\ bbox r = {| x_min := float32 (item boxes i 4);
                          y_min := float32 (item boxes i 5);
                          x_max := float32 (item boxes i 6);
                          y_max := float32 (item boxes i 7) |}.
Proof.
  intros H.
  apply analyze_mammogram_returns
    in H as (img & net & scores & boxes & Hdet & Hsel).
  exists img, net, scores, boxes. split; [done|]. intros r Hr.
  destruct (select_detections_rows iou float32 _ _ _ _ Hsel Hr)
    as (i & Hi & _ & Hc & Hb).
  by exists i.
Qed.

(** X11: whatever happens, [analyze_mammogram] leaves the files alone
    and writes exactly two log lines.  The second is the INFO line with
    the number of detections when it returns and the ERROR line with the
    raised message when it raises; it never ends the process itself. *)
Theorem analyze_mammogram_two_log_lines
    (path : string) (dicom : bool) (p m : string) (w : World) :
  files (analyze path dicom p m w).2 = files w
  /\ exists l1 m1 l2 m2,
      stdout (analyze path dicom p m w).2
        = stdout w ++ [LogLine l1 m1; LogLine l2 m2]
      /\ match (analyze path dicom p m w).1 with
         | Return results =>
             l2 = "INFO"
             /\ m2 = "Detected " +:+ pretty (length results)
                     +:+ " lesions in " +:+ path
         | Raise (Exception msg) =>
             l2 = "ERROR" /\ m2 = "Analysis failed: " +:+ msg
         | Raise (SystemExit _) => False
         end.
Proof.
  destruct (analyze_mammogram_cases path dicom p m w)
    as [(_ & msg & ->)|[(_ & _ & msg & ->)|(img & net & _ & _ & H)]].
  - split; [done|]. eexists _, _, _, _. simpl. rewrite <- app_assoc.
    split; [reflexivity|done].
  - split; [done|]. eexists _, _, _, _. simpl. rewrite <- app_assoc.
    split; [reflexivity|done].
  - destruct (im_detect net img ≫= _) as [results|].
    + rewrite H. split; [done|]. eexists _, _, _, _. simpl.
      rewrite <- app_assoc. split; [reflexivity|done].
    + destruct H as [msg ->]. split; [done|]. eexists _, _, _, _. simpl.
      rewrite <- app_assoc. split; [reflexivity|done].
Qed.

(** X12: when the image cannot be read or decoded the analysis raises
    the message of the preprocessing, which is logged twice, by
    [preprocess_image] and by [analyze_mammogram]; the network is not
    loaded, whether or not its files are there. *)
Theorem analyze_mammogram_unreadable_image
    (path : string) (dicom : bool) (p m : string) (w : World) :
  ~ readable w path dicom ->
  exists msg,
    analyze path dicom p m w
    = (Raise (Exception msg),
       emit (LogLine "ERROR" ("Analysis failed: " +:+ msg))
            (emit (LogLine "ERROR"
                     ("Preprocessing failed for " +:+ path +:+ ": "
                      +:+ msg)) w)).
Proof.
  intros Hn.
  destruct (analyze_mammogram_cases path dicom p m w)
    as [(_ & msg & H)|[(Hd & _)|(img & net & Him & _)]].
  - by exists msg.
  - done.
  - destruct (preprocess_image_cases dcmread imread_grayscale
                uint8_of_nonfinite path dicom w)
      as [[Hd _]|[_ [msg Hmsg]]]; [done|].
    rewrite Hmsg in Him. discriminate.
Qed.

(** X13: when the image is readable and the network files cannot be
    read or parsed, [load_net] raises, the message is logged by
    [load_net] and by [analyze_mammogram], and the detector is not
    run. *)
Theorem analyze_mammogram_network_failure
    (path : string) (dicom : bool) (p m : string) (w : World) :
  readable w path dicom ->
  network_of caffe_Net w p m = None ->
  exists msg,
    load_net caffe_Net p m w
    = (Raise (Exception msg),
       emit (LogLine "ERROR" ("Model loading failed: " +:+ msg)) w)
    /\ analyze path dicom p m w
       = (Raise (Exception msg),
          emit (LogLine "ERROR" ("Analysis failed: " +:+ msg))
               (emit (LogLine "ERROR" ("Model loading failed: " +:+ msg))
                     w)).
Proof.
  intros Hd Hnone.
  pose proof (load_net_cases p m w) as Hnet. rewrite Hnone in Hnet.
  destruct Hnet as [msg' Hnet].
  destruct (analyze_mammogram_cases path dicom p m w)
    as [(Hn & _)|[(_ & _ & msg & H)|(img & net & _ & Hsome & _)]].
  - done.
  - exists msg'. split; [done|]. revert H.
    unfold analyze_mammogram. py_run.
    destruct (preprocess_image_cases dcmread imread_grayscale
                uint8_of_nonfinite path dicom w)
      as [[_ [img ->]]|[Hn _]]; [|done].
    cbv beta iota. rewrite Hnet. intros _. reflexivity.
  - rewrite Hnone in Hsome. discriminate.
Qed.

(** A run that returns went through every stage. *)
Lemma main_return_inv (args : Args) (w : World) :
  (run_main args w).1 = Return tt ->
  exists d results,
    decrypt (input args) (output args) w
      = (Return true, decrypted_world args d w)
    /\ analyze (output args) (is_dicom args) (prototxt args) (model args)
               (decrypted_world args d w)
       = (Return results,
          logged (LogLine "INFO" ("Loaded model: " +:+ model args))
                 (LogLine "INFO"
                    ("Detected " +:+ pretty (length results)
                     +:+ " lesions in " +:+ output args))
                 (decrypted_world args d w))
    /\ may_remove w (output args) = true.
Proof.
  destruct (main_cases ENCRYPTION_KEY aes_decrypt_block dcmread
              imread_grayscale uint8_of_nonfinite Net caffe_Net im_detect
              iou float32 args w)
    as [(msg & _ & ->)|(d & r & w2 & Hd & Ha & _ & Hr)]; [done|].
  destruct r as [results|[msg|code]]; [|by rewrite Hr|done].
  simpl in Hr. destruct (may_remove w (output args)) eqn:Hrm;
    [|by rewrite Hr].
  intros _. exists d, results. split; [done|]. split; [|done].
  destruct (analyze_mammogram_cases (output args) (is_dicom args)
              (prototxt args) (model args) (decrypted_world args d w))
    as [(_ & msg & H)|[(_ & _ & msg & H)|(img & net & _ & _ & H)]].
  - rewrite H in Ha. discriminate.
  - rewrite H in Ha. discriminate.
  - destruct (im_detect net img ≫= _) as [results'|].
    + rewrite H in Ha. injection Ha as -> _. exact H.
    + destruct H as [msg H]. rewrite H in Ha. discriminate.
Qed.

(** X14: no exception leaves [main]: a run either returns or exits with
    status 1.  It returns, status 0, exactly when [decrypt_file] returns
    [True], the analysis returns and the removal of the plaintext file
    is not refused. *)
Theorem main_exit_status (args : Args) (w : World) :
  ((run_main args w).1 = Return tt
   \/ (run_main args w).1 = Raise (SystemExit 1))
  /\ (exit_status (run_main args w).1 = 0
      <-> (decrypt (input args) (output args) w).1 = Return true
          /\ (exists results,
                (analyze (output args) (is_dicom args) (prototxt args)
                         (model args)
                         (decrypt (input args) (output args) w).2).1
                = Return results)
          /\ may_remove w (output args) = true).
Proof.
  destruct (main_cases ENCRYPTION_KEY aes_decrypt_block dcmread
              imread_grayscale uint8_of_nonfinite Net caffe_Net im_detect
              iou float32 args w)
    as [(msg & Hd & ->)|(d & r & w2 & Hd & Ha & _ & Hr)].
  - rewrite Hd. split; [by right|]. split; [done|]. by intros [[=] _].
  - rewrite Hd. cbn [fst snd]. rewrite Ha. cbn [fst].
    destruct r as [results|[msg|code]]; [| |done].
    + simpl in Hr. destruct (may_remove w (output args)); rewrite Hr.
      * split; [by left|]. split; [|done]. intros _.
        split; [done|]. split; [by exists results|done].
      * split; [by right|]. split; [done|]. by intros (_ & _ & [=]).
    + rewrite Hr. split; [by right|]. split; [done|].
      by intros (_ & [results [=]] & _).
Qed.

(** X15: a run prints at most two JSON documents, and each one names
    the encrypted input path, not the path of the plaintext that was
    analysed. *)
Theorem main_report_names_input (args : Args) (w : World) :
  exists printed,
    json_lines (stdout (run_main args w).2)
      = json_lines (stdout w) ++ printed
    /\ (length printed <= 2)%nat
    /\ forall r, In r printed -> report_image_path r = input args.
Proof.
  destruct (main_cases ENCRYPTION_KEY aes_decrypt_block dcmread
              imread_grayscale uint8_of_nonfinite Net caffe_Net im_detect
              iou float32 args w)
    as [(msg & Hd & ->)|(d & r & w2 & Hd & Ha & Hq & Hr)].
  - exists []. cbn [snd]. rewrite json_lines_emit_log, app_nil_r.
    split; [done|]. split; [simpl; lia|]. intros r [].
  - pose proof (json_lines_quiet _ _ Hq) as Hj.
    unfold decrypted_world in Hj at 1. rewrite json_lines_emit_log in Hj.
    simpl in Hj.
    destruct r as [results|[msg|code]]; [| |done].
    + simpl in Hr. destruct (may_remove w (output args)); rewrite Hr;
        cbn [snd].
      * exists [SuccessReport results (input args) (now w)].
        rewrite json_lines_emit_log. simpl stdout.
        rewrite json_lines_app, Hj. split; [done|]. split; [simpl; lia|].
        intros r [<-|[]]. done.
      * exists [SuccessReport results (input args) (now w);
                ErrorReport (msg_denied (output args)) (input args) (now w)].
        rewrite !json_lines_emit_json, Hj, <- app_assoc.
        split; [done|]. split; [simpl; lia|].
        intros r [<-|[<-|[]]]; done.
    + rewrite Hr. cbn [snd].
      exists [ErrorReport msg (input args) (now w)].
      rewrite json_lines_emit_json, Hj. split; [done|].
      split; [simpl; lia|]. intros r [<-|[]]. done.
Qed.

(** X16: of the modelled files a run touches only the one at the output
    path: every other path holds after the run what it held before, the
    encrypted input and the network files included.  (The log file is
    outside the model.) *)
Theorem main_touches_output_only (args : Args) (w : World) (p : string) :
  p <> output args ->
  files (run_main args w).2 !! p = files w !! p.
Proof.
  intros Hp.
  destruct (main_cases ENCRYPTION_KEY aes_decrypt_block dcmread
              imread_grayscale uint8_of_nonfinite Net caffe_Net im_detect
              iou float32 args w)
    as [(msg & Hd & ->)|(d & r & w2 & Hd & Ha & Hq & Hr)]; [done|].
  destruct Hq as (Hf & _). simpl in Hf.
  destruct r as [results|[msg|code]]; [| |done].
  - simpl in Hr. destruct (may_remove w (output args)); rewrite Hr;
      cbn [snd emit set_files files]; rewrite ?Hf.
    + rewrite lookup_delete_ne by done. by rewrite lookup_insert_ne.
    + by rewrite lookup_insert_ne.
  - rewrite Hr. cbn [snd emit files]. rewrite Hf.
    by rewrite lookup_insert_ne.
Qed.

(** X17: the standard output of a run that returns gains five lines in
    this order: the three INFO lines of the decryption, the model and
    the detection count, the JSON success document, and the INFO line of
    the cleanup after it.  The logger shares the stream with the
    document, and nothing is left at the output path. *)
Theorem main_success_trace (args : Args) (w : World) :
  (run_main args w).1 = Return tt ->
  exists results,
    stdout (run_main args w).2
    = stdout w
      ++ [LogLine "INFO" ("Decrypted: " +:+ input args +:+ " -> "
                          +:+ output args);
          LogLine "INFO" ("Loaded model: " +:+ model args);
          LogLine "INFO" ("Detected " +:+ pretty (length results)
                          +:+ " lesions in " +:+ output args);
          JsonLine (SuccessReport results (input args) (now w));
          LogLine "INFO" ("Cleaned up: " +:+ output args)]
    /\ files (run_main args w).2 = delete (output args) (files w).
Proof.
  intros Hret.
  destruct (main_return_inv args w Hret) as (d & results & Hd & Ha & Hrm).
  exists results.
  destruct (main_cases ENCRYPTION_KEY aes_decrypt_block dcmread
              imread_grayscale uint8_of_nonfinite Net caffe_Net im_detect
              iou float32 args w)
    as [(msg & Hd' & _)|(d' & r & w2 & Hd' & Ha' & _ & Hr)].
  { rewrite Hd in Hd'. discriminate. }
  assert (Hw : decrypted_world args d w = decrypted_world args d' w)
    by congruence.
  rewrite <- Hw, Ha in Ha'. injection Ha' as <- <-.
  simpl in Hr. rewrite Hrm in Hr. rewrite Hr. cbn [snd]. split.
  - simpl. rewrite <- !app_assoc. reflexivity.
  - simpl. apply delete_insert_eq.
Qed.

(** X18: the filter holds through [main]: in every success document a
    run prints, each detection has confidence at least 0.8 and the
    detections are in descending order of confidence.  (The order rests
    on the suppression as modelled from the spec.) *)
Theorem main_success_report_filtered
    (args : Args) (w : World) (results : list Detection) (ip ts : string) :
  json_lines (stdout w) = [] ->
  In (SuccessReport results ip ts)
     (json_lines (stdout (run_main args w).2)) ->
  (forall r, In r results -> (8 # 10 <= confidence r)%Q)
  /\ StronglySorted (fun a b => (confidence b <= confidence a)%Q) results.
Proof.
  intros Hout.
  destruct (main_cases ENCRYPTION_KEY aes_decrypt_block dcmread
              imread_grayscale uint8_of_nonfinite Net caffe_Net im_detect
              iou float32 args w)
    as [(msg & Hd & ->)|(d & r & w2 & Hd & Ha & Hq & Hr)].
  { cbn [snd]. rewrite json_lines_emit_log, Hout. intros []. }
  pose proof (json_lines_quiet _ _ Hq) as Hj.
  unfold decrypted_world in Hj at 1. rewrite json_lines_emit_log in Hj.
  simpl in Hj. rewrite Hout in Hj.
  assert (Hres : forall results',
             r = Return results' ->
             (forall x, In x results' -> (8 # 10 <= confidence x)%Q)
             /\ StronglySorted (fun a b => (confidence b <= confidence a)%Q)
                               results').
  { intros results' ->.
    apply analyze_mammogram_returns
      in Ha as (img & net & scores & boxes & _ & Hsel).
    split.
    - intros x Hx. exact (select_detections_confident _ _ _ _ _ _ Hsel Hx).
    - exact (select_detections_sorted _ _ _ _ _ Hsel). }
  destruct r as [results'|[msg|code]]; [| |done].
  - simpl in Hr. destruct (may_remove w (output args)); rewrite Hr;
      cbn [snd].
    + rewrite json_lines_emit_log. simpl stdout.
      rewrite json_lines_app, Hj. simpl.
      intros [[= <- _ _]|[]]. by apply Hres.
    + rewrite !json_lines_emit_json, Hj. simpl.
      intros [[= <- _ _]|[[=]|[]]]. by apply Hres.
  - rewrite Hr. cbn [snd]. rewrite json_lines_emit_json, Hj. simpl.
    intros [[=]|[]].
Qed.

(** X19: where the removal of the plaintext file is not refused, the
    message of every error document a run prints is in the log as well,
    in the ERROR line [analyze_mammogram] wrote before it. *)
Theorem main_error_is_logged
    (args : Args) (w : World) (msg ip ts : string) :
  json_lines (stdout w) = [] ->
  may_remove w (output args) = true ->
  In (ErrorReport msg ip ts) (json_lines (stdout (run_main args w).2)) ->
  exists before after,
    stdout (run_main args w).2
    = before ++ LogLine "ERROR" ("Analysis failed: " +:+ msg)
             :: JsonLine (ErrorReport msg ip ts) :: after.
Proof.
  intros Hout Hrm.
  destruct (main_cases ENCRYPTION_KEY aes_decrypt_block dcmread
              imread_grayscale uint8_of_nonfinite Net caffe_Net im_detect
              iou float32 args w)
    as [(msg' & Hd & ->)|(d & r & w2 & Hd & Ha & Hq & Hr)].
  { cbn [snd]. rewrite json_lines_emit_log, Hout. intros []. }
  pose proof (json_lines_quiet _ _ Hq) as Hj.
  unfold decrypted_world in Hj at 1. rewrite json_lines_emit_log in Hj.
  simpl in Hj. rewrite Hout in Hj.
  destruct r as [results|[msg'|code]]; [| |done].
  - simpl in Hr. rewrite Hrm in Hr. rewrite Hr. cbn [snd].
    rewrite json_lines_emit_log. simpl stdout.
    rewrite json_lines_app, Hj. simpl. intros [[=]|[]].
  - rewrite Hr. cbn [snd]. rewrite json_lines_emit_json, Hj. simpl.
    intros [[= <- <- <-]|[]].
    assert (Hw2 : exists l1,
               stdout w2 = (stdout (decrypted_world args d w) ++ [l1])
                           ++ [LogLine "ERROR"
                                 ("Analysis failed: " +:+ msg')]).
    { destruct (analyze_mammogram_cases (output args) (is_dicom args)
                  (prototxt args) (model args) (decrypted_world args d w))
        as [(_ & m0 & H)|[(_ & _ & m0 & H)|(img & net & _ & _ & H)]].
      - rewrite H in Ha. injection Ha as <- <-. eexists. reflexivity.
      - rewrite H in Ha. injection Ha as <- <-. eexists. reflexivity.
      - destruct (im_detect net img ≫= _) as [results'|].
        + rewrite H in Ha. discriminate.
        + destruct H as [m0 H]. rewrite H in Ha. injection Ha as <- <-.
          eexists. reflexivity. }
    destruct Hw2 as [l1 Hw2]. rewrite Hw2.
    exists (stdout (decrypted_world args d w) ++ [l1]), [].
    by rewrite <- !app_assoc.
Qed.

End PipelineTraces.

(** ** The worked instances of Part III *)

(** [demo_blob] under [demo_key] meets every condition of the
    decryption. *)
Lemma decrypt_file_true_iff_witness :
  (demo_decrypt "scan.enc" "scan.png" (demo_start true)).1 = Return true
  <-> decryptable (Some demo_key) (demo_start true) "scan.enc" "scan.png".
Proof.
  apply (decrypt_file_true_iff (Some demo_key) toy_block toy_block_length
           (demo_start true) "scan.enc" "scan.png").
Defined.

(** The 32 bytes of [demo_blob] give an output of 13 bytes. *)
Lemma decrypt_file_output_shorter_witness :
  exists data out k,
    files (demo_start true) !! "scan.enc" = Some data
    /\ files (demo_decrypt "scan.enc" "scan.png" (demo_start true)).2
         !! "scan.png" = Some out
    /\ out = take k
               (concat (cbc_decrypt_blocks toy_block
                          (default [] (bytes_fromhex
                                         (default "" (Some demo_key))))
                          (take 16 data) (blocks (drop 16 data))))
    /\ (length out + 17 <= length data)%nat.
Proof.
  apply (decrypt_file_output_shorter (Some demo_key) toy_block
           toy_block_length (demo_start true) "scan.enc" "scan.png").
  vm_compute. reflexivity.
Defined.

(** The pixels 10, 30, 50 and 70 of the decrypted scan, maximum 70. *)
Lemma preprocess_image_raster_scaling_witness :
  exists im,
    preprocess_image demo_dcmread demo_imread demo_nonfinite
                     "scan.png" false demo_decrypted
    = (Return im, demo_decrypted)
    /\ forall i j k,
        (i < shape0 demo_pixels)%nat -> (j < shape1 demo_pixels)%nat ->
        (k < 3)%nat ->
        item3 im i j k = 255 * item demo_pixels i j / 70
        /\ (item3 im i j k = 255 <-> item demo_pixels i j = 70).
Proof.
  apply (preprocess_image_raster_scaling demo_dcmread demo_imread
           demo_nonfinite "scan.png" demo_decrypted demo_plain
           demo_pixels 70).
  - vm_compute. reflexivity.
  - reflexivity.
  - vm_compute. reflexivity.
  - lia.
  - intros i j _ _. simpl. lia.
Defined.

(** An image that already spans 0 to 255. *)
Lemma preprocess_image_full_range_witness :
  exists im,
    preprocess_image demo_dcmread full_imread demo_nonfinite
                     "scan.png" false demo_decrypted
    = (Return im, demo_decrypted)
    /\ dim0 im = shape0 full_pixels /\ dim1 im = shape1 full_pixels
    /\ forall i j k,
        (i < shape0 full_pixels)%nat -> (j < shape1 full_pixels)%nat ->
        (k < 3)%nat ->
        item3 im i j k = item full_pixels i j.
Proof.
  apply (preprocess_image_full_range demo_dcmread full_imread
           demo_nonfinite "scan.png" demo_decrypted demo_plain full_pixels).
  - vm_compute. reflexivity.
  - reflexivity.
  - vm_compute. reflexivity.
  - intros i j _ _. simpl. lia.
Defined.

(** The inverted-monochrome data set of [demo_dcmread]: least pixel 10,
    greatest 70. *)
Lemma preprocess_image_monochrome1_witness :
  exists im,
    preprocess_image demo_dcmread demo_imread demo_nonfinite
                     "scan.png" true demo_decrypted
    = (Return im, demo_decrypted)
    /\ forall i j k,
        (i < shape0 (pixel_array demo_dataset))%nat ->
        (j < shape1 (pixel_array demo_dataset))%nat -> (k < 3)%nat ->
        item3 im i j k
        = 255 * (70 - item (pixel_array demo_dataset) i j) / (70 - 10)
        /\ (item (pixel_array demo_dataset) i j = 70 -> item3 im i j k = 0)
        /\ (item (pixel_array demo_dataset) i j = 10 ->
            item3 im i j k = 255).
Proof.
  apply (preprocess_image_monochrome1 demo_dcmread demo_imread
           demo_nonfinite "scan.png" demo_decrypted demo_plain
           demo_dataset 10 70).
  - vm_compute. reflexivity.
  - reflexivity.
  - reflexivity.
  - reflexivity.
  - vm_compute. reflexivity.
  - exists 0%nat, 0%nat. simpl. repeat split; lia.
  - intros i j _ _. simpl. lia.
  - lia.
  - simpl. lia.
Defined.

(** A data set of four pixels at 200. *)
Lemma preprocess_image_uniform_monochrome1_witness :
  exists img,
    preprocess_image flat_dcmread demo_imread demo_nonfinite
                     "scan.png" true demo_decrypted
    = (Return (three_channels demo_nonfinite img), demo_decrypted)
    /\ shape0 img = shape0 (pixel_array flat_dataset)
    /\ shape1 img = shape1 (pixel_array flat_dataset)
    /\ forall i j, (i < shape0 (pixel_array flat_dataset))%nat ->
                   (j < shape1 (pixel_array flat_dataset))%nat ->
                   item img i j = NaN.
Proof.
  apply (preprocess_image_uniform_monochrome1 flat_dcmread demo_imread
           demo_nonfinite "scan.png" demo_decrypted demo_plain
           flat_dataset 200).
  - vm_compute. reflexivity.
  - reflexivity.
  - reflexivity.
  - simpl. lia.
  - intros i j _ _. reflexivity.
Defined.

(** The analysis of the decrypted scan: its one detection is row 0 of
    the detector's output. *)
Lemma analyze_mammogram_results_from_class_one_witness :
  exists img net scores boxes,
    demo_im_detect net img = Some (scores, boxes)
    /\ forall r, In r [demo_detection] ->
         exists i,
           (i < shape0 scores)%nat
           /\ confidence r = demo_float32 (item scores i 1)
           /\ bbox r = {| x_min := demo_float32 (item boxes i 4);
                          y_min := demo_float32 (item boxes i 5);
                          x_max := demo_float32 (item boxes i 6);
                          y_max := demo_float32 (item boxes i 7) |}.
Proof.
  apply (analyze_mammogram_results_from_class_one
           demo_dcmread demo_imread demo_nonfinite unit demo_caffe_Net
           demo_im_detect demo_iou demo_float32
           "scan.png" false "deploy.prototxt" "lesion.caffemodel"
           demo_decrypted
           (demo_analyze "scan.png" false "deploy.prototxt"
                         "lesion.caffemodel" demo_decrypted).2
           [demo_detection]).
  vm_compute. reflexivity.
Defined.

(** An analysis asked for a file that is not there. *)
Lemma analyze_mammogram_unreadable_image_witness :
  exists msg,
    demo_analyze "absent.png" false "deploy.prototxt" "lesion.caffemodel"
                 demo_decrypted
    = (Raise (Exception msg),
       emit (LogLine "ERROR" ("Analysis failed: " +:+ msg))
            (emit (LogLine "ERROR"
                     ("Preprocessing failed for " +:+ "absent.png" +:+ ": "
                      +:+ msg)) demo_decrypted)).
Proof.
  apply (analyze_mammogram_unreadable_image
           demo_dcmread demo_imread demo_nonfinite unit demo_caffe_Net
           demo_im_detect demo_iou demo_float32
           "absent.png" false "deploy.prototxt" "lesion.caffemodel"
           demo_decrypted).
  intros (data & Hf & _). vm_compute in Hf. discriminate Hf.
Defined.

(** An analysis asked for a weight file that is not there. *)
Lemma analyze_mammogram_network_failure_witness :
  exists msg,
    load_net demo_caffe_Net "deploy.prototxt" "missing.caffemodel"
             demo_decrypted
    = (Raise (Exception msg),
       emit (LogLine "ERROR" ("Model loading failed: " +:+ msg))
            demo_decrypted)
    /\ demo_analyze "scan.png" false "deploy.prototxt" "missing.caffemodel"
                    demo_decrypted
       = (Raise (Exception msg),
          emit (LogLine "ERROR" ("Analysis failed: " +:+ msg))
               (emit (LogLine "ERROR" ("Model loading failed: " +:+ msg))
                     demo_decrypted)).
Proof.
  apply (analyze_mammogram_network_failure
           demo_dcmread demo_imread demo_nonfinite unit demo_caffe_Net
           demo_im_detect demo_iou demo_float32
           "scan.png" false "deploy.prototxt" "missing.caffemodel"
           demo_decrypted).
  - exists demo_plain. split; [vm_compute; reflexivity|].
    exists demo_pixels. split; [reflexivity|]. simpl. lia.
  - vm_compute. reflexivity.
Defined.

(** The encrypted scan is still there after the run. *)
Lemma main_touches_output_only_witness :
  files (demo_main demo_args (demo_start true)).2 !! "scan.enc"
  = files (demo_start true) !! "scan.enc".
Proof.
  apply (main_touches_output_only (Some demo_key) toy_block demo_dcmread
           demo_imread demo_nonfinite unit demo_caffe_Net demo_im_detect
           demo_iou demo_float32 demo_args (demo_start true) "scan.enc").
  simpl. discriminate.
Defined.

(** The five lines of the run on the encrypted scan. *)
Lemma main_success_trace_witness :
  exists results,
    stdout (demo_main demo_args (demo_start true)).2
    = stdout (demo_start true)
      ++ [LogLine "INFO" ("Decrypted: " +:+ input demo_args +:+ " -> "
                          +:+ output demo_args);
          LogLine "INFO" ("Loaded model: " +:+ model demo_args);
          LogLine "INFO" ("Detected " +:+ pretty (length results)
                          +:+ " lesions in " +:+ output demo_args);
          JsonLine (SuccessReport results (input demo_args)
                                  (now (demo_start true)));
          LogLine "INFO" ("Cleaned up: " +:+ output demo_args)]
    /\ files (demo_main demo_args (demo_start true)).2
       = delete (output demo_args) (files (demo_start true)).
Proof.
  apply (main_success_trace (Some demo_key) toy_block demo_dcmread
           demo_imread demo_nonfinite unit demo_caffe_Net demo_im_detect
           demo_iou demo_float32 demo_args (demo_start true)).
  vm_compute. reflexivity.
Defined.

(** The success document of the run on the encrypted scan. *)
Lemma main_success_report_filtered_witness :
  (forall r, In r [demo_detection] -> (8 # 10 <= confidence r)%Q)
  /\ StronglySorted (fun a b => (confidence b <= confidence a)%Q)
                    [demo_detection].
Proof.
  apply (main_success_report_filtered (Some demo_key) toy_block
           demo_dcmread demo_imread demo_nonfinite unit demo_caffe_Net
           demo_im_detect demo_iou demo_float32 demo_args (demo_start true)
           [demo_detection] "scan.enc" "2024-05-01T10:00:00").
  - reflexivity.
  - vm_compute. left. reflexivity.
Defined.

(** The run whose weight file is missing. *)
Lemma main_error_is_logged_witness :
  exists before after,
    stdout (demo_main faulty_args (demo_start true)).2
    = before
      ++ LogLine "ERROR" ("Analysis failed: "
                          +:+ "Could not open or parse the network files")
      :: JsonLine (ErrorReport "Could not open or parse the network files"
                               "scan.enc" "2024-05-01T10:00:00") :: after.
Proof.
  apply (main_error_is_logged (Some demo_key) toy_block demo_dcmread
           demo_imread demo_nonfinite unit demo_caffe_Net demo_im_detect
           demo_iou demo_float32 faulty_args (demo_start true)).
  - reflexivity.
  - reflexivity.
  - vm_compute. left. reflexivity.
Defined.
